(** * mkbo: front-matter generator scripts

    A shallow embedding of the five near-duplicate node scripts of the
    repository (two in [src/mkbo.js], three in [src/unnamed/part_000]) and
    of the properties their specification states about them.

    - JavaScript strings are lists of characters ([list ascii]), a character
      standing for a code unit below 256.
    - The [answers] object is a record.  A text property is an [option]:
      [None] is JavaScript's [undefined], which a skipped question leaves
      behind.  A flag is a [bool]; an unset flag is falsy and reads [false].
    - A function that can throw returns a [Completion].
    - [inquirer.prompt] is modelled by what the scripts rely on: questions
      asked in order, [when], [default] and [validate], against a list of the
      user's replies.  A run that is out of replies is [Blocked].
    - [slugify] comes from an npm package that is not in the sources and is
      modelled from the specification. *)

From Stdlib Require Import List Ascii String Bool Arith Lia.
Import ListNotations.

Open Scope list_scope.

(* ================================================================== *)
(** ** Text *)

Definition str : Type := list ascii.

(** String literals of the source are written [lit "..."]. *)
Fixpoint lit (s : string) : str :=
  match s with
  | EmptyString => []
  | String c r => c :: lit r
  end.

Definition nl : ascii := "010"%char.
Definition comma : ascii := ","%char.
Definition hyphen : ascii := "-"%char.
Definition dquote : ascii := "034"%char.
Definition backslash : ascii := "092"%char.

Definition str_eqb (a b : str) : bool :=
  if list_eq_dec ascii_dec a b then true else false.

(** [String.prototype.trim] removes white space and line terminators at
    both ends; below 256 these are TAB, LF, VT, FF, CR, SP and NBSP. *)
Definition is_space (c : ascii) : bool :=
  let n := nat_of_ascii c in
  ((9 <=? n) && (n <=? 13)) || (n =? 32) || (n =? 160).

Fixpoint trim_start (s : str) : str :=
  match s with
  | [] => []
  | c :: r => if is_space c then trim_start r else s
  end.

Definition trim_end (s : str) : str := rev (trim_start (rev s)).

Definition trim (s : str) : str := trim_end (trim_start s).

(** [s.split(sep)] for a one-character separator: the pieces between the
    separators, in order, empty pieces included. *)
Fixpoint split_on (sep : ascii) (s : str) : list str :=
  match s with
  | [] => [[]]
  | c :: r =>
      if Ascii.eqb c sep then [] :: split_on sep r
      else match split_on sep r with
           | [] => [[c]]
           | h :: t => (c :: h) :: t
           end
  end.

(** [pieces.join(sep)]. *)
Fixpoint join (sep : str) (pieces : list str) : str :=
  match pieces with
  | [] => []
  | [p] => p
  | p :: rest => p ++ sep ++ join sep rest
  end.

Definition lines (text : str) : list str := split_on nl text.

Fixpoint starts_with (p s : str) : bool :=
  match p, s with
  | [], _ => true
  | _ :: _, [] => false
  | a :: p', b :: s' => Ascii.eqb a b && starts_with p' s'
  end.

(** The text has a line equal to [l]. *)
Definition has_line (l text : str) : Prop := In l (lines text).

(** The text has a line that begins with [p]. *)
Definition has_line_from (p text : str) : Prop :=
  exists l, In l (lines text) /\ starts_with p l = true.

(** The lines [block] occur in the text one after the other. *)
Definition has_block (block : list str) (text : str) : Prop :=
  exists before after, lines text = before ++ block ++ after.

Definition single_line (s : str) : Prop := ~ In nl s.

(* ------------------------------------------------------------------ *)
(** *** JSON.stringify(tagsArray, null, 2) *)

Definition hex_digit (n : nat) : ascii :=
  nth n (lit "0123456789abcdef") "0"%char.

(** QuoteJSONString, one code unit. *)
Definition json_escape (c : ascii) : str :=
  let n := nat_of_ascii c in
  if Ascii.eqb c dquote then [backslash; dquote]
  else if Ascii.eqb c backslash then [backslash; backslash]
  else if n =? 8 then [backslash; "b"%char]
  else if n =? 9 then [backslash; "t"%char]
  else if n =? 10 then [backslash; "n"%char]
  else if n =? 12 then [backslash; "f"%char]
  else if n =? 13 then [backslash; "r"%char]
  else if n <? 32
       then backslash :: lit "u00" ++ [hex_digit (n / 16); hex_digit (n mod 16)]
  else [c].

Definition json_quote (s : str) : str :=
  dquote :: flat_map json_escape s ++ [dquote].

(** An array of strings with a two-space indent: [[]] is printed as the two
    brackets, anything else with one element per line. *)
Definition JSON_stringify (arr : list str) : str :=
  match arr with
  | [] => lit "[]"
  | _ :: _ =>
      lit "[" ++ [nl]
        ++ join (comma :: [nl]) (map (fun e => lit "  " ++ json_quote e) arr)
        ++ [nl] ++ lit "]"
  end.

(* ================================================================== *)
(** ** Completions *)

Inductive Exn : Type :=
| TypeError        (* a method called on undefined *)
| SlugifyError.    (* slugify: string argument expected *)

Inductive Completion (A : Type) : Type :=
| Normal (a : A)
| Throw (e : Exn).
Arguments Normal {A} a.
Arguments Throw {A} e.

Definition bind {A B} (m : Completion A) (k : A -> Completion B)
  : Completion B :=
  match m with
  | Normal a => k a
  | Throw e => Throw e
  end.

Notation "x <- m ;; k" := (bind m (fun x => k))
  (at level 61, m at next level, right associativity).

(** [`${v}`] for a string-or-undefined. *)
Definition interp (v : option str) : str :=
  match v with
  | Some s => s
  | None => lit "undefined"
  end.

(** [`${b}`] for a boolean. *)
Definition interp_bool (b : bool) : str :=
  if b then lit "true" else lit "false".

(** Truthiness of a string-or-undefined. *)
Definition truthy (v : option str) : bool :=
  match v with
  | Some (_ :: _) => true
  | _ => false
  end.

(** [v.trim()]. *)
Definition trim_of (v : option str) : Completion str :=
  match v with
  | Some s => Normal (trim s)
  | None => Throw TypeError
  end.

(** [v.trim() !== ""]. *)
Definition not_blank (v : option str) : Completion bool :=
  t <- trim_of v ;; Normal (negb (str_eqb t [])).

(** [v || ""]. *)
Definition or_empty (v : option str) : str :=
  if truthy v then interp v else [].

(* ================================================================== *)
(** ** The slug *)

Definition is_lower_alnum (c : ascii) : bool :=
  let n := nat_of_ascii c in
  ((97 <=? n) && (n <=? 122)) || ((48 <=? n) && (n <=? 57)).

Definition to_lower (c : ascii) : ascii :=
  let n := nat_of_ascii c in
  if (65 <=? n) && (n <=? 90) then ascii_of_nat (n + 32) else c.

(** Runs of characters outside [a-z0-9] become one hyphen.  [in_run] tells
    that the hyphen of the current run is already written. *)
Fixpoint collapse_runs (in_run : bool) (s : str) : str :=
  match s with
  | [] => []
  | c :: r =>
      if is_lower_alnum c then c :: collapse_runs false r
      else if in_run then collapse_runs true r
      else hyphen :: collapse_runs true r
  end.

Fixpoint drop_hyphens (s : str) : str :=
  match s with
  | [] => []
  | c :: r => if Ascii.eqb c hyphen then drop_hyphens r else s
  end.

Definition trim_hyphens (s : str) : str :=
  rev (drop_hyphens (rev (drop_hyphens s))).

(** Modelled from the spec: the [slugify] function, which the scripts import
    from the npm package of that name and whose code is not part of the
    sources.  The spec (4.1): "Lowercases, strips/replaces characters outside
    [a-z0-9] with single hyphens, trims leading/trailing hyphens."  What the
    package does with its own character map and in its default, non-strict
    mode is not modelled. *)
Definition slugify (s : str) : str :=
  trim_hyphens (collapse_runs false (map to_lower s)).

(** [slugify(v, { lower: true })]; the package throws on a non-string. *)
Definition slugify_lower (v : option str) : Completion str :=
  match v with
  | Some s => Normal (slugify s)
  | None => Throw SlugifyError
  end.

(** What the slug is promised to look like, as a check on the text. *)
Fixpoint no_double_hyphen (s : str) : bool :=
  match s with
  | a :: ((b :: _) as r) =>
      negb (Ascii.eqb a hyphen && Ascii.eqb b hyphen) && no_double_hyphen r
  | _ => true
  end.

Definition slug_char (c : ascii) : bool :=
  is_lower_alnum c || Ascii.eqb c hyphen.

Definition slug_shaped (s : str) : bool :=
  forallb slug_char s
  && no_double_hyphen s
  && negb (starts_with [hyphen] s)
  && negb (starts_with [hyphen] (rev s)).

(** No two hyphens next to each other, as a property of the text. *)
Definition double_free (s : str) : Prop :=
  forall before after, s <> before ++ hyphen :: hyphen :: after.

(* ================================================================== *)
(** ** The answers *)

Inductive EntryType : Type := Post | Note | TIL.

(** The [answers] object.  Input prompts give strings, confirm prompts
    booleans, the list prompt one of its choices; a flag that is unset is
    falsy and reads as [false]. *)
Record EntryAnswers : Type := mkAnswers {
  entryType : option EntryType;
  title : option str;
  date : option str;
  tags : option str;
  description : option str;
  pageHasCode : bool;
  snow : bool;
  pageHasYoutube : bool;
  pageHasVideo : bool;
  hasImage : bool;
  imageSource : option str;
  imageAlt : option str;
  creditPerson : option str;
  creditLink : option str
}.

(** [answers.tags ? answers.tags.split(",").map((tag) => tag.trim()) : []],
    the same in the five scripts. *)
Definition tagsArray_of (answers : EntryAnswers) : list str :=
  if truthy (tags answers)
  then map trim (split_on comma (interp (tags answers)))
  else [].

(** The opening of the front matter, the same template in the five scripts
    ([src/mkbo.js] lines 94-99):
    the delimiter, [title], [description], [date] and [tags]. *)
Definition opening (answers : EntryAnswers) (tagsArray : list str) : str :=
  lit "---" ++ [nl]
    ++ lit "title: " ++ interp (title answers) ++ [nl]
    ++ lit "description: " ++ interp (description answers) ++ [nl]
    ++ lit "date: " ++ interp (date answers) ++ [nl]
    ++ lit "tags: " ++ JSON_stringify tagsArray ++ [nl].

(* ================================================================== *)
(** ** Prompts

    [inquirer.prompt] is the scripts' way to ask: a list of questions, asked
    in order, each with a name, a kind, and optionally a default, a [when]
    test on the answers so far and a validator.  What the user does is a
    list of replies. *)

(** The empty object from which [inquirer.prompt] starts. *)
Definition blank_answers : EntryAnswers :=
  mkAnswers None None None None None false false false false false
            None None None None.

Inductive TextField : Type :=
| f_title | f_date | f_tags | f_description
| f_imageSource | f_imageAlt | f_creditPerson | f_creditLink.

Inductive FlagField : Type :=
| f_pageHasCode | f_snow | f_pageHasYoutube | f_pageHasVideo | f_hasImage.

Definition get_text (name : TextField) (a : EntryAnswers) : option str :=
  match name with
  | f_title => title a
  | f_date => date a
  | f_tags => tags a
  | f_description => description a
  | f_imageSource => imageSource a
  | f_imageAlt => imageAlt a
  | f_creditPerson => creditPerson a
  | f_creditLink => creditLink a
  end.

Definition get_flag (name : FlagField) (a : EntryAnswers) : bool :=
  match name with
  | f_pageHasCode => pageHasCode a
  | f_snow => snow a
  | f_pageHasYoutube => pageHasYoutube a
  | f_pageHasVideo => pageHasVideo a
  | f_hasImage => hasImage a
  end.

(** [answers[name] = value]. *)
Definition set_text (name : TextField) (value : str) (a : EntryAnswers)
  : EntryAnswers :=
  let v := Some value in
  match a with
  | mkAnswers et t d tg ds pc sn py pv hi src alt cp cl =>
      match name with
      | f_title => mkAnswers et v d tg ds pc sn py pv hi src alt cp cl
      | f_date => mkAnswers et t v tg ds pc sn py pv hi src alt cp cl
      | f_tags => mkAnswers et t d v ds pc sn py pv hi src alt cp cl
      | f_description => mkAnswers et t d tg v pc sn py pv hi src alt cp cl
      | f_imageSource => mkAnswers et t d tg ds pc sn py pv hi v alt cp cl
      | f_imageAlt => mkAnswers et t d tg ds pc sn py pv hi src v cp cl
      | f_creditPerson => mkAnswers et t d tg ds pc sn py pv hi src alt v cl
      | f_creditLink => mkAnswers et t d tg ds pc sn py pv hi src alt cp v
      end
  end.

Definition set_flag (name : FlagField) (value : bool) (a : EntryAnswers)
  : EntryAnswers :=
  match a with
  | mkAnswers et t d tg ds pc sn py pv hi src alt cp cl =>
      match name with
      | f_pageHasCode =>
          mkAnswers et t d tg ds value sn py pv hi src alt cp cl
      | f_snow => mkAnswers et t d tg ds pc value py pv hi src alt cp cl
      | f_pageHasYoutube =>
          mkAnswers et t d tg ds pc sn value pv hi src alt cp cl
      | f_pageHasVideo =>
          mkAnswers et t d tg ds pc sn py value hi src alt cp cl
      | f_hasImage => mkAnswers et t d tg ds pc sn py pv value src alt cp cl
      end
  end.

Definition set_entryType (value : EntryType) (a : EntryAnswers)
  : EntryAnswers :=
  match a with
  | mkAnswers _ t d tg ds pc sn py pv hi src alt cp cl =>
      mkAnswers (Some value) t d tg ds pc sn py pv hi src alt cp cl
  end.

(** The optional parts of an input question.  A question without [when] is
    always asked, one without [validate] takes any line, one without
    [default] has the default [undefined]; the functions see the answers
    given so far. *)
Record Options : Type := mkOptions {
  default : EntryAnswers -> Completion (option str);
  when : EntryAnswers -> Completion bool;
  validate : str -> bool
}.

Definition plain : Options :=
  mkOptions (fun _ => Normal None) (fun _ => Normal true) (fun _ => true).

Definition with_default (d : EntryAnswers -> Completion (option str))
  (o : Options) : Options :=
  mkOptions d (when o) (validate o).

Definition with_when (w : EntryAnswers -> Completion bool) (o : Options)
  : Options :=
  mkOptions (default o) w (validate o).

Definition with_validate (f : str -> bool) (o : Options) : Options :=
  mkOptions (default o) (when o) f.

(** [default: value], the value read when the list is built. *)
Definition fixed (value : option str)
  : EntryAnswers -> Completion (option str) :=
  fun _ => Normal value.

Inductive Question : Type :=
| input (name : TextField) (message : string) (o : Options)
| confirm (name : FlagField) (message : string) (default : bool)
| choose (message : string) (choices : list EntryType).

(** What the user does at a question: types a line (an empty one for a bare
    Enter), answers yes or no (or a bare Enter), or picks a choice. *)
Inductive Reply : Type :=
| Line (s : str)
| YesNo (b : option bool)
| Pick (t : EntryType).

(** How asking ends: with a value and the replies not yet used, with an
    exception, or still waiting for a fitting reply. *)
Inductive Run (A : Type) : Type :=
| Done (a : A) (rest : list Reply)
| Fails (e : Exn)
| Blocked.
Arguments Done {A} a rest.
Arguments Fails {A} e.
Arguments Blocked {A}.

(** An input question: an empty line stands for the default, or for the
    empty string without one; a line the validator refuses is asked
    again. *)
Fixpoint ask_input (valid : str -> bool) (d : option str)
  (replies : list Reply) : option (str * list Reply) :=
  match replies with
  | Line s :: rest =>
      let value :=
        match s, d with
        | [], Some dflt => dflt
        | _, _ => s
        end in
      if valid value then Some (value, rest) else ask_input valid d rest
  | _ => None
  end.

Definition eq_EntryType (a b : EntryType) : bool :=
  match a, b with
  | Post, Post | Note, Note | TIL, TIL => true
  | _, _ => false
  end.

Fixpoint prompt (questions : list Question) (answers : EntryAnswers)
  (replies : list Reply) : Run EntryAnswers :=
  match questions with
  | [] => Done answers replies
  | input name _ o :: later =>
      match when o answers with
      | Throw e => Fails e
      | Normal false => prompt later answers replies
      | Normal true =>
          match default o answers with
          | Throw e => Fails e
          | Normal d =>
              match ask_input (validate o) d replies with
              | None => Blocked
              | Some (value, rest) =>
                  prompt later (set_text name value answers) rest
              end
          end
      end
  | confirm name _ d :: later =>
      match replies with
      | YesNo b :: rest =>
          let value := match b with Some b => b | None => d end in
          prompt later (set_flag name value answers) rest
      | _ => Blocked
      end
  | choose _ choices :: later =>
      match replies with
      | Pick t :: rest =>
          if existsb (eq_EntryType t) choices
          then prompt later (set_entryType t answers) rest
          else Blocked
      | _ => Blocked
      end
  end.

(** [inquirer.prompt(questions)]. *)
Definition inquirer_prompt (questions : list Question)
  (replies : list Reply) : Run EntryAnswers :=
  prompt questions blank_answers replies.

(** The one question of the review loop,
    [{ type: "confirm", name: "accept", ..., default: true }]. *)
Definition ask_accept (replies : list Reply) : option (bool * list Reply) :=
  match replies with
  | YesNo b :: rest => Some (match b with Some b => b | None => true end, rest)
  | _ => None
  end.

(** [fs.writeFileSync(path, data, "utf8")]. *)
Record FileWrite : Type := mkWrite { path : str; data : str }.

(** [`${slugify(answers.title, { lower: true })}.jpg`], the default of the
    image source. *)
Definition default_image (answers : EntryAnswers)
  : Completion (option str) :=
  slug <- slugify_lower (title answers) ;; Normal (Some (slug ++ lit ".jpg")).

(* ================================================================== *)
(** ** The URL pattern

    The credit link is checked with a regular expression that is anchored
    at both ends, so [urlPattern.test] is membership in its language,
    decided here with derivatives. *)

Inductive Regex : Type :=
| Nothing
| Empty
| Class (p : ascii -> bool)
| Seq (r1 r2 : Regex)
| Or (r1 r2 : Regex)
| Star (r : Regex).

Fixpoint nullable (r : Regex) : bool :=
  match r with
  | Nothing => false
  | Empty => true
  | Class _ => false
  | Seq r1 r2 => nullable r1 && nullable r2
  | Or r1 r2 => nullable r1 || nullable r2
  | Star _ => true
  end.

Definition seq (r1 r2 : Regex) : Regex :=
  match r1, r2 with
  | Nothing, _ => Nothing
  | _, Nothing => Nothing
  | Empty, _ => r2
  | _, _ => Seq r1 r2
  end.

Definition or (r1 r2 : Regex) : Regex :=
  match r1, r2 with
  | Nothing, _ => r2
  | _, Nothing => r1
  | _, _ => Or r1 r2
  end.

Fixpoint derive (c : ascii) (r : Regex) : Regex :=
  match r with
  | Nothing => Nothing
  | Empty => Nothing
  | Class p => if p c then Empty else Nothing
  | Seq r1 r2 =>
      if nullable r1
      then or (seq (derive c r1) r2) (derive c r2)
      else seq (derive c r1) r2
  | Or r1 r2 => or (derive c r1) (derive c r2)
  | Star r1 => seq (derive c r1) (Star r1)
  end.

Fixpoint matches (r : Regex) (s : str) : bool :=
  match s with
  | [] => nullable r
  | c :: rest => matches (derive c r) rest
  end.

(** The pieces of the notation. *)
Definition opt (r : Regex) : Regex := Or r Empty.
Definition plus (r : Regex) : Regex := Seq r (Star r).
Definition upto3 (r : Regex) : Regex := Seq r (opt (Seq r (opt r))).
Definition thrice (r : Regex) : Regex := Seq r (Seq r r).

(** With the flag [i] a letter stands for both cases. *)
Definition ch (c : ascii) : Regex :=
  Class (fun x => Ascii.eqb (to_lower x) c).

Definition is_digit (c : ascii) : bool :=
  let n := nat_of_ascii c in (48 <=? n) && (n <=? 57).

Definition is_letter (c : ascii) : bool :=
  let n := nat_of_ascii (to_lower c) in (97 <=? n) && (n <=? 122).

Definition one_of (s : string) (c : ascii) : bool :=
  existsb (Ascii.eqb c) (lit s).

Fixpoint word (s : str) : Regex :=
  match s with
  | [] => Empty
  | c :: rest => Seq (ch c) (word rest)
  end.

(** The classes of the domain name: letter or digit; letter, digit or
    hyphen; letter; digit. *)
Definition alnum : Regex := Class (fun c => is_letter c || is_digit c).
Definition alnum_hyphen : Regex :=
  Class (fun c => is_letter c || is_digit c || one_of "-" c).
Definition letter : Regex := Class is_letter.
Definition digit : Regex := Class is_digit.

(** The pattern of the validator of [creditLink], piece by piece as the
    source builds it. *)
Definition urlPattern : Regex :=
  (* protocol: http or https and the two slashes, optional *)
  Seq (opt (Seq (word (lit "http")) (Seq (opt (ch "s")) (word (lit "://")))))
  (* domain name: labels, each with an optional dot, one label at least;
     then two letters or more *)
  (Seq (Or (Seq (plus (Seq (Seq alnum
                                (Star (Seq (Star alnum_hyphen) alnum)))
                           (opt (ch "."))))
                (Seq letter (Seq letter (Star letter))))
  (* OR ip (v4) address: four groups of one to three digits *)
           (Seq (thrice (Seq (upto3 digit) (ch "."))) (upto3 digit)))
  (* port and path *)
  (Seq (opt (Seq (ch ":") (plus digit)))
  (Seq (Star (Seq (ch "/")
                  (Star (Class (fun c => is_letter c || is_digit c
                                         || one_of "-%_.~+" c)))))
  (* query string *)
  (Seq (opt (Seq (ch "?")
                 (Star (Class (fun c => is_letter c || is_digit c
                                        || one_of ";&%_.~+=-" c)))))
  (* fragment locator *)
       (opt (Seq (ch "#")
                 (Star (Class (fun c => is_letter c || is_digit c
                                        || one_of "-_" c))))))))).

(** [urlPattern.test(input) || "Please enter a valid URL"]: anything but
    [true] refuses the line. *)
Definition valid_url (input : str) : bool := matches urlPattern input.

(** Sequencing of runs. *)
Definition and_then {A B} (r : Run A) (k : A -> list Reply -> Run B)
  : Run B :=
  match r with
  | Done a rest => k a rest
  | Fails e => Fails e
  | Blocked => Blocked
  end.

Definition returned {A} (c : Completion A) (rest : list Reply) : Run A :=
  match c with
  | Normal a => Done a rest
  | Throw e => Fails e
  end.

(** The loop of [confirmOrEditYaml], the same in the three scripts that have
    it but for the list of questions and the assembler: show the text, ask
    to accept, and on a no ask everything again and assemble again.  Every
    round uses up a reply at least, so [fuel] is never the limit when it
    exceeds the number of replies.  [yamlContent] is only displayed. *)
Fixpoint review_loop
  (edit_questions : EntryAnswers -> list Question)
  (generateYamlContent : EntryAnswers -> Completion (str * str))
  (fuel : nat) (yamlContent : str) (answers : EntryAnswers)
  (replies : list Reply) : Run EntryAnswers :=
  match fuel with
  | O => Blocked
  | S fuel =>
      match ask_accept replies with
      | None => Blocked
      | Some (true, rest) => Done answers rest
      | Some (false, rest) =>
          and_then (inquirer_prompt (edit_questions answers) rest)
            (fun answers rest =>
               and_then (returned (generateYamlContent answers) rest)
                 (fun result rest =>
                    review_loop edit_questions generateYamlContent fuel
                      (fst result) answers rest))
      end
  end.

(** [main] of the three scripts with a review loop. *)
Definition main_with_review
  (promptUser : list Reply -> Run EntryAnswers)
  (generateYamlContent : EntryAnswers -> Completion (str * str))
  (confirmOrEditYaml : str -> EntryAnswers -> list Reply -> Run EntryAnswers)
  (replies : list Reply) : Run FileWrite :=
  and_then (promptUser replies) (fun answers rest =>
  and_then (returned (generateYamlContent answers) rest) (fun result rest =>
  and_then (confirmOrEditYaml (fst result) answers rest) (fun answers rest =>
  and_then (returned (generateYamlContent answers) rest) (fun result rest =>
  let '(yamlContent, slugifiedTitle) := result in
  Done (mkWrite (slugifiedTitle ++ lit ".md") yamlContent) rest)))).

(* ================================================================== *)
(** ** The five scripts *)

(** First script of [src/mkbo.js] (lines 1-218): flag [pageHasYoutube],
    image block when the source is not blank, review loop. *)
Module Youtube.

Definition promptUser_questions (today : str) : list Question :=
  [ input f_title "Title:" plain;
    input f_date "Date (yyyy-mm-dd):" (with_default (fixed (Some today)) plain);
    input f_tags "Tags (comma-separated):" plain;
    input f_description "Description:" plain;
    confirm f_pageHasCode "Page has code?" false;
    confirm f_snow "Snow?" false;
    confirm f_pageHasYoutube "Page has video?" false;
    input f_imageSource "Image source (leave blank to skip):"
      (with_default default_image plain);
    input f_imageAlt "Image alt text:"
      (with_when (fun answers => not_blank (imageSource answers)) plain) ].

Definition promptUser (today : str) (replies : list Reply)
  : Run EntryAnswers :=
  inquirer_prompt (promptUser_questions today) replies.

Definition generateYamlContent (answers : EntryAnswers)
  : Completion (str * str) :=
  slugifiedTitle <- slugify_lower (title answers) ;;
  let tagsArray := tagsArray_of answers in
  let yamlContent := opening answers tagsArray in
  let yamlContent :=
    if pageHasCode answers
    then yamlContent
           ++ lit "pageHasCode: " ++ interp_bool (pageHasCode answers) ++ [nl]
    else yamlContent in
  let yamlContent :=
    if pageHasYoutube answers
    then yamlContent
           ++ lit "pageHapageHasYoutubesVideo: "
           ++ interp_bool (pageHasYoutube answers) ++ [nl]
    else yamlContent in
  let yamlContent :=
    if snow answers
    then yamlContent ++ lit "snow: " ++ interp_bool (snow answers) ++ [nl]
    else yamlContent in
  shown <- not_blank (imageSource answers) ;;
  let yamlContent :=
    if shown
    then yamlContent
           ++ lit "image:" ++ [nl]
           ++ lit "  source: " ++ interp (imageSource answers) ++ [nl]
           ++ lit "  alt: " ++ or_empty (imageAlt answers) ++ [nl]
    else yamlContent in
  let yamlContent := yamlContent ++ lit "---" in
  Normal (yamlContent, slugifiedTitle).

(** The questions of the review loop; the defaults are read from the
    answers of the round before. *)
Definition edit_questions (answers : EntryAnswers) : list Question :=
  [ input f_title "Title:" (with_default (fixed (title answers)) plain);
    input f_date "Date (yyyy-mm-dd):"
      (with_default (fixed (date answers)) plain);
    input f_tags "Tags (comma-separated):"
      (with_default (fixed (tags answers)) plain);
    input f_description "Description:"
      (with_default (fixed (description answers)) plain);
    confirm f_pageHasCode "Page has code?" (pageHasCode answers);
    confirm f_snow "Snow?" (snow answers);
    confirm f_pageHasYoutube "Page has video?" (pageHasYoutube answers);
    input f_imageSource "Image source (leave blank to skip):"
      (with_default (fixed (imageSource answers)) plain);
    input f_imageAlt "Image alt text:"
      (with_default (fixed (imageAlt answers))
         (with_when (fun answers => not_blank (imageSource answers)) plain)) ].

Definition confirmOrEditYaml (yamlContent : str) (answers : EntryAnswers)
  (replies : list Reply) : Run EntryAnswers :=
  review_loop edit_questions generateYamlContent
    (S (List.length replies)) yamlContent answers replies.

Definition main (today : str) (replies : list Reply) : Run FileWrite :=
  main_with_review (promptUser today) generateYamlContent confirmOrEditYaml
    replies.

End Youtube.

(** Second script of [src/mkbo.js] (lines 219-493): as the first, with the
    flag line spelled [pageHasYoutube] and the photo credit. *)
Module Credit.

Definition promptUser_questions (today : str) : list Question :=
  [ input f_title "Title:" plain;
    input f_date "Date (yyyy-mm-dd):" (with_default (fixed (Some today)) plain);
    input f_tags "Tags (comma-separated):" plain;
    input f_description "Description:" plain;
    confirm f_pageHasCode "Page has code?" false;
    confirm f_snow "Snow?" false;
    confirm f_pageHasYoutube "Page has YouTube?" false;
    input f_imageSource "Image source (leave blank to skip):"
      (with_default default_image plain);
    input f_imageAlt "Image alt text:"
      (with_when (fun answers => not_blank (imageSource answers)) plain);
    input f_creditPerson "Credit person (leave blank to skip):"
      (with_when (fun answers => not_blank (imageSource answers)) plain);
    input f_creditLink "Credit link (required if credit person is provided):"
      (with_when (fun answers => not_blank (creditPerson answers))
         (with_validate valid_url plain)) ].

Definition promptUser (today : str) (replies : list Reply)
  : Run EntryAnswers :=
  inquirer_prompt (promptUser_questions today) replies.

Definition generateYamlContent (answers : EntryAnswers)
  : Completion (str * str) :=
  slugifiedTitle <- slugify_lower (title answers) ;;
  let tagsArray := tagsArray_of answers in
  let yamlContent := opening answers tagsArray in
  let yamlContent :=
    if pageHasCode answers
    then yamlContent
           ++ lit "pageHasCode: " ++ interp_bool (pageHasCode answers) ++ [nl]
    else yamlContent in
  let yamlContent :=
    if pageHasYoutube answers
    then yamlContent
           ++ lit "pageHasYoutube: "
           ++ interp_bool (pageHasYoutube answers) ++ [nl]
    else yamlContent in
  let yamlContent :=
    if snow answers
    then yamlContent ++ lit "snow: " ++ interp_bool (snow answers) ++ [nl]
    else yamlContent in
  shown <- not_blank (imageSource answers) ;;
  yamlContent <-
    (if shown
     then
       let yamlContent :=
         yamlContent
           ++ lit "image:" ++ [nl]
           ++ lit "  source: " ++ interp (imageSource answers) ++ [nl]
           ++ lit "  alt: " ++ or_empty (imageAlt answers) ++ [nl] in
       credited <- not_blank (creditPerson answers) ;;
       Normal
         (if credited
          then yamlContent
                 ++ lit "  creditPerson: "
                 ++ interp (creditPerson answers) ++ [nl]
                 ++ lit "  creditLink: "
                 ++ interp (creditLink answers) ++ [nl]
          else yamlContent)
     else Normal yamlContent) ;;
  let yamlContent := yamlContent ++ lit "---" in
  Normal (yamlContent, slugifiedTitle).

(** The questions of the review loop; the defaults are read from the
    answers of the round before. *)
Definition edit_questions (answers : EntryAnswers) : list Question :=
  [ input f_title "Title:" (with_default (fixed (title answers)) plain);
    input f_date "Date (yyyy-mm-dd):"
      (with_default (fixed (date answers)) plain);
    input f_tags "Tags (comma-separated):"
      (with_default (fixed (tags answers)) plain);
    input f_description "Description:"
      (with_default (fixed (description answers)) plain);
    confirm f_pageHasCode "Page has code?" (pageHasCode answers);
    confirm f_snow "Snow?" (snow answers);
    confirm f_pageHasYoutube "Page has YouTube?" (pageHasYoutube answers);
    input f_imageSource "Image source (leave blank to skip):"
      (with_default (fixed (imageSource answers)) plain);
    input f_imageAlt "Image alt text:"
      (with_default (fixed (imageAlt answers))
         (with_when (fun answers => not_blank (imageSource answers)) plain));
    input f_creditPerson "Credit person (leave blank to skip):"
      (with_when (fun answers => not_blank (imageSource answers)) plain);
    input f_creditLink "Credit link (required if credit person is provided):"
      (with_when (fun answers => not_blank (creditPerson answers))
         (with_validate valid_url plain)) ].

Definition confirmOrEditYaml (yamlContent : str) (answers : EntryAnswers)
  (replies : list Reply) : Run EntryAnswers :=
  review_loop edit_questions generateYamlContent
    (S (List.length replies)) yamlContent answers replies.

Definition main (today : str) (replies : list Reply) : Run FileWrite :=
  main_with_review (promptUser today) generateYamlContent confirmOrEditYaml
    replies.

End Credit.

(** First script of [src/unnamed/part_000] (lines 1-198): as the first of
    [src/mkbo.js], with the flag named [pageHasVideo]. *)
Module Video.

Definition promptUser_questions (today : str) : list Question :=
  [ input f_title "Title:" plain;
    input f_date "Date (yyyy-mm-dd):" (with_default (fixed (Some today)) plain);
    input f_tags "Tags (comma-separated):" plain;
    input f_description "Description:" plain;
    confirm f_pageHasCode "Page has code?" false;
    confirm f_snow "Snow?" false;
    confirm f_pageHasVideo "Page has video?" false;
    input f_imageSource "Image source (leave blank to skip):"
      (with_default default_image plain);
    input f_imageAlt "Image alt text:"
      (with_when (fun answers => not_blank (imageSource answers)) plain) ].

Definition promptUser (today : str) (replies : list Reply)
  : Run EntryAnswers :=
  inquirer_prompt (promptUser_questions today) replies.

Definition generateYamlContent (answers : EntryAnswers)
  : Completion (str * str) :=
  slugifiedTitle <- slugify_lower (title answers) ;;
  let tagsArray := tagsArray_of answers in
  let yamlContent := opening answers tagsArray in
  let yamlContent :=
    if pageHasCode answers
    then yamlContent
           ++ lit "pageHasCode: " ++ interp_bool (pageHasCode answers) ++ [nl]
    else yamlContent in
  let yamlContent :=
    if pageHasVideo answers
    then yamlContent
           ++ lit "pageHasVideo: "
           ++ interp_bool (pageHasVideo answers) ++ [nl]
    else yamlContent in
  let yamlContent :=
    if snow answers
    then yamlContent ++ lit "snow: " ++ interp_bool (snow answers) ++ [nl]
    else yamlContent in
  shown <- not_blank (imageSource answers) ;;
  let yamlContent :=
    if shown
    then yamlContent
           ++ lit "image:" ++ [nl]
           ++ lit "  source: " ++ interp (imageSource answers) ++ [nl]
           ++ lit "  alt: " ++ or_empty (imageAlt answers) ++ [nl]
    else yamlContent in
  let yamlContent := yamlContent ++ lit "---" in
  Normal (yamlContent, slugifiedTitle).

(** The questions of the review loop; the defaults are read from the
    answers of the round before. *)
Definition edit_questions (answers : EntryAnswers) : list Question :=
  [ input f_title "Title:" (with_default (fixed (title answers)) plain);
    input f_date "Date (yyyy-mm-dd):"
      (with_default (fixed (date answers)) plain);
    input f_tags "Tags (comma-separated):"
      (with_default (fixed (tags answers)) plain);
    input f_description "Description:"
      (with_default (fixed (description answers)) plain);
    confirm f_pageHasCode "Page has code?" (pageHasCode answers);
    confirm f_snow "Snow?" (snow answers);
    confirm f_pageHasVideo "Page has video?" (pageHasVideo answers);
    input f_imageSource "Image source (leave blank to skip):"
      (with_default (fixed (imageSource answers)) plain);
    input f_imageAlt "Image alt text:"
      (with_default (fixed (imageAlt answers))
         (with_when (fun answers => not_blank (imageSource answers)) plain)) ].

Definition confirmOrEditYaml (yamlContent : str) (answers : EntryAnswers)
  (replies : list Reply) : Run EntryAnswers :=
  review_loop edit_questions generateYamlContent
    (S (List.length replies)) yamlContent answers replies.

Definition main (today : str) (replies : list Reply) : Run FileWrite :=
  main_with_review (promptUser today) generateYamlContent confirmOrEditYaml
    replies.

End Video.

(** Second script of [src/unnamed/part_000] (lines 199-408): the one with
    entry types; the image block is behind [hasImage], the alt text is
    written as it is, and [draft: true] closes the front matter. *)
Module EntryTyped.

Definition BASE_DIR : str :=
  lit "/Users/Bob/Dropbox/Docs/Sites/bobmonsour.com/src/".

Definition promptUser_questions (today : str) : list Question :=
  [ choose "What type of entry would you like to create?" [Post; Note; TIL];
    input f_title "Title:" plain;
    input f_date "Date (yyyy-mm-dd):" (with_default (fixed (Some today)) plain);
    input f_tags "Tags (comma-separated):" plain;
    input f_description "Description:" plain;
    confirm f_pageHasCode "Page has code?" false;
    confirm f_snow "Snow?" false;
    confirm f_pageHasYoutube "Page has YouTube?" false;
    confirm f_hasImage "Will there be an image?" false;
    input f_imageSource "Image source:"
      (with_when (fun answers => Normal (hasImage answers))
         (with_default default_image plain));
    input f_imageAlt "Image alt text:"
      (with_when (fun answers =>
                    if hasImage answers then not_blank (imageSource answers)
                    else Normal false)
         (with_validate (fun input => negb (str_eqb (trim input) [])) plain));
    input f_creditPerson "Credit person (leave blank to skip):"
      (with_when (fun answers =>
                    if hasImage answers then not_blank (imageSource answers)
                    else Normal false) plain);
    input f_creditLink "Credit link (required if credit person is provided):"
      (with_when (fun answers =>
                    if hasImage answers then not_blank (creditPerson answers)
                    else Normal false)
         (with_validate valid_url plain)) ].

Definition promptUser (today : str) (replies : list Reply)
  : Run EntryAnswers :=
  inquirer_prompt (promptUser_questions today) replies.

Definition generateYamlContent (answers : EntryAnswers)
  : Completion (str * str) :=
  slugifiedTitle <- slugify_lower (title answers) ;;
  let tagsArray := tagsArray_of answers in
  let yamlContent := opening answers tagsArray in
  let yamlContent :=
    if pageHasCode answers
    then yamlContent
           ++ lit "pageHasCode: " ++ interp_bool (pageHasCode answers) ++ [nl]
    else yamlContent in
  let yamlContent :=
    if pageHasYoutube answers
    then yamlContent
           ++ lit "pageHasYoutube: "
           ++ interp_bool (pageHasYoutube answers) ++ [nl]
    else yamlContent in
  let yamlContent :=
    if snow answers
    then yamlContent ++ lit "snow: " ++ interp_bool (snow answers) ++ [nl]
    else yamlContent in
  yamlContent <-
    (if hasImage answers
     then
       shown <- not_blank (imageSource answers) ;;
       if shown
       then
         let yamlContent :=
           yamlContent
             ++ lit "image:" ++ [nl]
             ++ lit "  source: " ++ interp (imageSource answers) ++ [nl]
             ++ lit "  alt: " ++ interp (imageAlt answers) ++ [nl] in
         credited <- not_blank (creditPerson answers) ;;
         Normal
           (if credited
            then yamlContent
                   ++ lit "  creditPerson: "
                   ++ interp (creditPerson answers) ++ [nl]
                   ++ lit "  creditLink: "
                   ++ interp (creditLink answers) ++ [nl]
            else yamlContent)
       else Normal yamlContent
     else Normal yamlContent) ;;
  let yamlContent := yamlContent ++ lit "draft: true" ++ [nl] ++ lit "---" in
  Normal (yamlContent, slugifiedTitle).

(** [entryTypeToDir[answers.entryType]] inside a template; a missing entry
    type looks up [undefined]. *)
Definition entryTypeToDir (t : option EntryType) : str :=
  match t with
  | Some Post => lit "posts"
  | Some Note => lit "notes"
  | Some TIL => lit "til"
  | None => lit "undefined"
  end.

Definition targetDir (answers : EntryAnswers) : str :=
  BASE_DIR ++ entryTypeToDir (entryType answers) ++ lit "/".

Definition filePath (answers : EntryAnswers) (slugifiedTitle : str) : str :=
  targetDir answers ++ slugifiedTitle ++ lit ".md".


(** What [main] does with the answers: assemble, and write the file under
    the directory of the entry type.  Making the directory and opening the
    editor leave the written file as it is. *)
Definition write_entry (answers : EntryAnswers) (rest : list Reply)
  : Run FileWrite :=
  and_then (returned (generateYamlContent answers) rest) (fun result rest =>
  let '(yamlContent, slugifiedTitle) := result in
  Done (mkWrite (filePath answers slugifiedTitle) yamlContent) rest).

Definition main (today : str) (replies : list Reply) : Run FileWrite :=
  and_then (promptUser today replies) write_entry.

End EntryTyped.

(** Third script of [src/unnamed/part_000] (lines 409-512): the image block
    is written always, with the answers as they are. *)
Module Plain.

Definition promptUser_questions (today : str) : list Question :=
  [ input f_title "Title:" plain;
    input f_date "Date (yyyy-mm-dd):" (with_default (fixed (Some today)) plain);
    input f_tags "Tags (comma-separated):" plain;
    input f_description "Description:" plain;
    confirm f_pageHasCode "Page has code?" false;
    confirm f_snow "Snow?" false;
    confirm f_pageHasVideo "Page has video?" false;
    input f_imageSource "Image source:" (with_default default_image plain);
    input f_imageAlt "Image alt text:" plain ].

Definition promptUser (today : str) (replies : list Reply)
  : Run EntryAnswers :=
  inquirer_prompt (promptUser_questions today) replies.

Definition generateYamlContent (answers : EntryAnswers)
  : Completion (str * str) :=
  slugifiedTitle <- slugify_lower (title answers) ;;
  let tagsArray := tagsArray_of answers in
  let yamlContent := opening answers tagsArray in
  let yamlContent :=
    if pageHasCode answers
    then yamlContent
           ++ lit "pageHasCode: " ++ interp_bool (pageHasCode answers) ++ [nl]
    else yamlContent in
  let yamlContent :=
    if pageHasVideo answers
    then yamlContent
           ++ lit "pageHasVideo: "
           ++ interp_bool (pageHasVideo answers) ++ [nl]
    else yamlContent in
  let yamlContent :=
    if snow answers
    then yamlContent ++ lit "snow: " ++ interp_bool (snow answers) ++ [nl]
    else yamlContent in
  let yamlContent :=
    yamlContent
      ++ lit "image:" ++ [nl]
      ++ lit "  source: " ++ interp (imageSource answers) ++ [nl]
      ++ lit "  alt: " ++ interp (imageAlt answers) ++ [nl]
      ++ lit "---" in
  Normal (yamlContent, slugifiedTitle).


Definition main (today : str) (replies : list Reply) : Run FileWrite :=
  and_then (promptUser today replies) (fun answers rest =>
  and_then (returned (generateYamlContent answers) rest) (fun result rest =>
  let '(yamlContent, slugifiedTitle) := result in
  Done (mkWrite (slugifiedTitle ++ lit ".md") yamlContent) rest)).

End Plain.

(* ================================================================== *)
(** ** The scripts side by side *)

Inductive Script : Type := Youtube | Credit | Video | EntryTyped | Plain.

Definition generate (v : Script) (answers : EntryAnswers)
  : Completion (str * str) :=
  match v with
  | Youtube => Youtube.generateYamlContent answers
  | Credit => Credit.generateYamlContent answers
  | Video => Video.generateYamlContent answers
  | EntryTyped => EntryTyped.generateYamlContent answers
  | Plain => Plain.generateYamlContent answers
  end.

Definition promptUser_questions (v : Script) : str -> list Question :=
  match v with
  | Youtube => Youtube.promptUser_questions
  | Credit => Credit.promptUser_questions
  | Video => Video.promptUser_questions
  | EntryTyped => EntryTyped.promptUser_questions
  | Plain => Plain.promptUser_questions
  end.

Definition promptUser (v : Script) : str -> list Reply -> Run EntryAnswers :=
  match v with
  | Youtube => Youtube.promptUser
  | Credit => Credit.promptUser
  | Video => Video.promptUser
  | EntryTyped => EntryTyped.promptUser
  | Plain => Plain.promptUser
  end.

Definition main (v : Script) : str -> list Reply -> Run FileWrite :=
  match v with
  | Youtube => Youtube.main
  | Credit => Credit.main
  | Video => Video.main
  | EntryTyped => EntryTyped.main
  | Plain => Plain.main
  end.


(** The scripts in which the image block hangs on the source alone. *)
Definition source_gated (v : Script) : bool :=
  match v with
  | Youtube | Credit | Video => true
  | EntryTyped | Plain => false
  end.

(** The scripts that ask for a photo credit. *)
Definition asks_credit (v : Script) : bool :=
  match v with
  | Credit | EntryTyped => true
  | Youtube | Video | Plain => false
  end.

(* ================================================================== *)
(** ** What a script writes

    The conditions of the scripts as tests on the answers, and the front
    matter line by line; the scripts are shown to write exactly this. *)

(** The string is there and [trim] leaves something of it. *)
Definition nonblank (v : option str) : bool :=
  match v with
  | Some s => negb (str_eqb (trim s) [])
  | None => false
  end.

Definition present {A} (v : option A) : bool :=
  match v with Some _ => true | None => false end.

(** Whether the script writes the image block, and the credit lines. *)
Definition shows_image (v : Script) (a : EntryAnswers) : bool :=
  match v with
  | Youtube | Credit | Video => nonblank (imageSource a)
  | EntryTyped => hasImage a && nonblank (imageSource a)
  | Plain => true
  end.

Definition shows_credit (v : Script) (a : EntryAnswers) : bool :=
  match v with
  | Credit | EntryTyped => shows_image v a && nonblank (creditPerson a)
  | Youtube | Video | Plain => false
  end.

(** The answers hold every property on which the script calls a method:
    the title (slugify), the image source where it is trimmed, the credit
    person where it is trimmed. *)
Definition complete (v : Script) (a : EntryAnswers) : bool :=
  present (title a) &&
  match v with
  | Youtube | Video => present (imageSource a)
  | Credit =>
      present (imageSource a)
      && (negb (shows_image v a) || present (creditPerson a))
  | EntryTyped =>
      negb (hasImage a)
      || (present (imageSource a)
          && (negb (shows_image v a) || present (creditPerson a)))
  | Plain => true
  end.

(** The three flags and, per script, the answer read and the key written. *)
Inductive Flag : Type := CodeFlag | VideoFlag | SnowFlag.

Definition flag_value (v : Script) (f : Flag) (a : EntryAnswers) : bool :=
  match f with
  | CodeFlag => pageHasCode a
  | SnowFlag => snow a
  | VideoFlag =>
      match v with
      | Youtube | Credit | EntryTyped => pageHasYoutube a
      | Video | Plain => pageHasVideo a
      end
  end.

Definition flag_key (v : Script) (f : Flag) : str :=
  match f with
  | CodeFlag => lit "pageHasCode"
  | SnowFlag => lit "snow"
  | VideoFlag =>
      match v with
      | Youtube => lit "pageHapageHasYoutubesVideo"
      | Credit | EntryTyped => lit "pageHasYoutube"
      | Video | Plain => lit "pageHasVideo"
      end
  end.

Definition unlines (ls : list str) : str :=
  flat_map (fun l => l ++ [nl]) ls.

Fixpoint item_lines (arr : list str) : list str :=
  match arr with
  | [] => []
  | [e] => [lit "  " ++ json_quote e]
  | e :: rest => (lit "  " ++ json_quote e ++ [comma]) :: item_lines rest
  end.

Definition tag_lines (arr : list str) : list str :=
  match arr with
  | [] => [lit "tags: []"]
  | _ :: _ => [lit "tags: ["] ++ item_lines arr ++ [lit "]"]
  end.

Definition head_lines (a : EntryAnswers) : list str :=
  [ lit "---";
    lit "title: " ++ interp (title a);
    lit "description: " ++ interp (description a);
    lit "date: " ++ interp (date a) ].

Definition flag_line (v : Script) (f : Flag) (a : EntryAnswers) : list str :=
  if flag_value v f a then [flag_key v f ++ lit ": true"] else [].

Definition flag_lines (v : Script) (a : EntryAnswers) : list str :=
  flag_line v CodeFlag a ++ flag_line v VideoFlag a ++ flag_line v SnowFlag a.

Definition alt_text (v : Script) (a : EntryAnswers) : str :=
  match v with
  | Youtube | Credit | Video => or_empty (imageAlt a)
  | EntryTyped | Plain => interp (imageAlt a)
  end.

Definition image_lines (v : Script) (a : EntryAnswers) : list str :=
  if shows_image v a
  then [ lit "image:";
         lit "  source: " ++ interp (imageSource a);
         lit "  alt: " ++ alt_text v a ]
  else [].

Definition credit_lines (v : Script) (a : EntryAnswers) : list str :=
  if shows_credit v a
  then [ lit "  creditPerson: " ++ interp (creditPerson a);
         lit "  creditLink: " ++ interp (creditLink a) ]
  else [].

Definition draft_lines (v : Script) : list str :=
  match v with
  | EntryTyped => [lit "draft: true"]
  | _ => []
  end.

(** Every line of the front matter before the closing delimiter. *)
Definition layout (v : Script) (a : EntryAnswers) : list str :=
  head_lines a ++ tag_lines (tagsArray_of a) ++ flag_lines v a
    ++ image_lines v a ++ credit_lines v a ++ draft_lines v.

(** The front matter as the scripts return it: the lines and the closing
    delimiter, which has no line feed after it. *)
Definition text (v : Script) (a : EntryAnswers) : str :=
  unlines (layout v a) ++ lit "---".

(** How a line of the printed tags array begins. *)
Definition item_prefix : str := lit "  " ++ [dquote].

(** The image sub-block: the [image:] line, then the source, then the alt
    text. *)
Definition has_image_block (yaml : str) : Prop :=
  exists src alt,
    has_block [lit "image:"; lit "  source: " ++ src; lit "  alt: " ++ alt]
              yaml.

(* ================================================================== *)
(** ** Answers and replies as the prompts give and take them *)

(** No line feed in a text answer: an input prompt reads one line.  The
    tags are left out, JSON.stringify escapes them. *)
Definition one_line (v : option str) : bool :=
  negb (existsb (Ascii.eqb nl) (interp v)).

Definition answers_one_line (a : EntryAnswers) : bool :=
  one_line (title a) && one_line (description a) && one_line (date a)
  && one_line (imageSource a) && one_line (imageAlt a)
  && one_line (creditPerson a) && one_line (creditLink a).

(** A typed line holds no line feed. *)
Definition reply_one_line (r : Reply) : bool :=
  match r with
  | Line s => one_line (Some s)
  | YesNo _ | Pick _ => true
  end.

(** The default of the question has no line feed when the answers so far
    have none.  The tags need none of it. *)
Definition tidy (q : Question) : Prop :=
  match q with
  | input f_tags _ _ => True
  | input _ _ o =>
      forall a d, answers_one_line a = true ->
                  default o a = Normal (Some d) -> one_line (Some d) = true
  | confirm _ _ _ | choose _ _ => True
  end.

(** Every link that is there has passed the validator. *)
Definition link_checked (a : EntryAnswers) : Prop :=
  forall link, creditLink a = Some link -> valid_url link = true.

(** The question of the credit link has the URL validator. *)
Definition checks_link (q : Question) : Prop :=
  match q with
  | input f_creditLink _ o => validate o = valid_url
  | _ => True
  end.

(** A question of the review loop has as default the answer of the round
    before. *)
Definition defaults_to (previous : EntryAnswers) (q : Question) : Prop :=
  match q with
  | input name _ o =>
      forall answers, default o answers = Normal (get_text name previous)
  | confirm name _ d => d = get_flag name previous
  | choose _ _ => False
  end.

(* ================================================================== *)
(** ** Samples *)

(** A bare Enter at an input question. *)
Definition enter : Reply := Line [].

(** In the review loop: no to the text, a bare Enter at each of the ten
    questions that follow, then yes. *)
Definition redo_with_enter : list Reply :=
  [ YesNo (Some false);
    enter; enter; enter; enter; YesNo None; YesNo None; YesNo None;
    enter; enter; enter;
    YesNo (Some true) ].

(** The same in the scripts without the credit questions: nine questions
    after the no. *)
Definition redo_with_enter_short : list Reply :=
  [ YesNo (Some false);
    enter; enter; enter; enter; YesNo None; YesNo None; YesNo None;
    enter; enter;
    YesNo (Some true) ].

(** The session of the README: title, tags, description and alt text typed,
    Enter everywhere else, and the text accepted. *)
Definition readme_session : list Reply :=
  [ Line (lit "A test post"); enter; Line (lit "blogging, personal");
    Line (lit
       "This is a test post being created as an example of using this tool.");
    YesNo None; YesNo None; YesNo None;
    enter; Line (lit "A blog post being displayed on a laptop");
    YesNo None ].

(** The answers of the example of the README. *)
Definition readme_answers : EntryAnswers :=
  mkAnswers None (Some (lit "A test post")) (Some (lit "2025-02-07"))
    (Some (lit "blogging, personal"))
    (Some (lit
       "This is a test post being created as an example of using this tool."))
    false false false false false
    (Some (lit "a-test-post.jpg"))
    (Some (lit "A blog post being displayed on a laptop")) None None.

(** The example of the README with the three flags set. *)
Definition flagged_answers : EntryAnswers :=
  mkAnswers (Some Note) (Some (lit "A test post")) (Some (lit "2025-02-07"))
    (Some (lit "blogging, personal"))
    (Some (lit "This is a test post."))
    true true true true true
    (Some (lit "a-test-post.jpg"))
    (Some (lit "A blog post being displayed on a laptop"))
    (Some (lit "Joe Photog")) (Some (lit "https://linktojoe.com")).

(** No tags typed. *)
Definition untagged_answers : EntryAnswers :=
  mkAnswers None (Some (lit "A test post")) (Some (lit "2025-02-07"))
    (Some []) (Some []) false false false false false
    (Some (lit "a-test-post.jpg")) (Some (lit "A laptop")) (Some []) None.

(** Tags with nothing between two commas. *)
Definition gapped_tags_answers : EntryAnswers :=
  mkAnswers None (Some (lit "A test post")) (Some (lit "2025-02-07"))
    (Some (lit "a,,b")) (Some []) false false false false false
    (Some []) None None None.

(** The image source left blank. *)
Definition blank_source_answers : EntryAnswers :=
  mkAnswers None (Some (lit "A test post")) (Some (lit "2025-02-07"))
    (Some (lit "blogging")) (Some []) false false false false false
    (Some []) (Some []) None None.

(** A space typed as the image source: the alt text is not asked. *)
Definition space_source_answers : EntryAnswers :=
  mkAnswers None (Some (lit "A test post")) (Some (lit "2025-02-07"))
    (Some (lit "blogging")) (Some []) false false false false false
    (Some (lit " ")) None None None.

(** An image source and no alt text. *)
Definition no_alt_answers : EntryAnswers :=
  mkAnswers None (Some (lit "A test post")) (Some (lit "2025-02-07"))
    (Some (lit "blogging")) (Some []) false false false false false
    (Some (lit "a-test-post.jpg")) None (Some []) None.

(** A space typed as the credit person: the link is not asked. *)
Definition space_credit_answers : EntryAnswers :=
  mkAnswers None (Some (lit "A test post")) (Some (lit "2025-02-07"))
    (Some (lit "blogging")) (Some []) false false false false false
    (Some (lit "a-test-post.jpg")) (Some (lit "A laptop"))
    (Some (lit " ")) None.

(** A record with a link that is no URL. *)
Definition bad_link_answers : EntryAnswers :=
  mkAnswers None (Some (lit "A test post")) (Some (lit "2025-02-07"))
    (Some (lit "blogging")) (Some []) false false false false false
    (Some (lit "a-test-post.jpg")) (Some (lit "A laptop"))
    (Some (lit "Joe Photog")) (Some (lit "not a url")).

(* ================================================================== *)
(** ** What the URL pattern accepts

    The language of a regular expression, to state what the validator
    accepts apart from how it is decided. *)

Inductive denotes : Regex -> str -> Prop :=
| denotes_empty : denotes Empty []
| denotes_class (p : ascii -> bool) (c : ascii) :
    p c = true -> denotes (Class p) [c]
| denotes_seq (r1 r2 : Regex) (s1 s2 : str) :
    denotes r1 s1 -> denotes r2 s2 -> denotes (Seq r1 r2) (s1 ++ s2)
| denotes_or_left (r1 r2 : Regex) (s : str) :
    denotes r1 s -> denotes (Or r1 r2) s
| denotes_or_right (r1 r2 : Regex) (s : str) :
    denotes r2 s -> denotes (Or r1 r2) s
| denotes_star_none (r : Regex) : denotes (Star r) []
| denotes_star_more (r : Regex) (s1 s2 : str) :
    denotes r s1 -> denotes (Star r) s2 -> denotes (Star r) (s1 ++ s2).

(** Every character class of the expression lies within [allowed]. *)
Fixpoint classes_within (allowed : ascii -> bool) (r : Regex) : Prop :=
  match r with
  | Nothing | Empty => True
  | Class p => forall c, p c = true -> allowed c = true
  | Seq r1 r2 | Or r1 r2 => classes_within allowed r1 /\ classes_within allowed r2
  | Star r1 => classes_within allowed r1
  end.

(** Every character class of the expression takes a letter in both cases
    or in neither. *)
Fixpoint case_blind (r : Regex) : Prop :=
  match r with
  | Nothing | Empty => True
  | Class p => forall c, p (to_lower c) = p c
  | Seq r1 r2 | Or r1 r2 => case_blind r1 /\ case_blind r2
  | Star r1 => case_blind r1
  end.

(** The least length of a text of the language ([None]: there is none). *)
Fixpoint least_length (r : Regex) : option nat :=
  match r with
  | Nothing => None
  | Empty => Some 0
  | Class _ => Some 1
  | Seq r1 r2 =>
      match least_length r1, least_length r2 with
      | Some a, Some b => Some (a + b)
      | _, _ => None
      end
  | Or r1 r2 =>
      match least_length r1, least_length r2 with
      | Some a, Some b => Some (Nat.min a b)
      | Some a, None => Some a
      | None, b => b
      end
  | Star _ => Some 0
  end.

(** The characters that a URL of the validator can hold. *)
Definition url_char (c : ascii) : bool :=
  is_letter c || is_digit c || one_of ":/.-%_~+?;&=#" c.

(** The protocol of the pattern and what follows it. *)
Definition url_protocol : Regex :=
  Seq (word (lit "http")) (Seq (opt (ch "s")) (word (lit "://"))).

Definition url_after_protocol : Regex :=
  match urlPattern with
  | Seq _ rest => rest
  | _ => Nothing
  end.

(* ================================================================== *)
(** ** More samples *)

(** Answers with a title and nothing else. *)
Definition title_only_answers : EntryAnswers :=
  mkAnswers None (Some (lit "A test post")) None None None
    false false false false false None None None None.

(** A title of two lines, the second one being a flag line. *)
Definition two_line_title_answers : EntryAnswers :=
  mkAnswers None (Some (lit "A test post" ++ nl :: lit "snow: true"))
    (Some (lit "2025-02-07")) (Some []) (Some [])
    false false false false false (Some (lit "a.jpg")) (Some []) (Some [])
    None.

(** The first eight replies of a session: title, date, tags, description,
    the three flags, and the image source. *)
Definition session_to_source (title date tags description : str)
  (code snow video : option bool) (source : str) : list Reply :=
  [ Line title; Line date; Line tags; Line description;
    YesNo code; YesNo snow; YesNo video; Line source ].

(** A session of the second script of mkbo.js with a credit. *)
Definition credit_session : list Reply :=
  [ Line (lit "A test post"); enter; Line (lit "blogging, personal");
    Line (lit "This is a test post."); YesNo None; YesNo None; YesNo None;
    enter; Line (lit "A laptop"); Line (lit "Joe Photog");
    Line (lit "https://linktojoe.com") ].

Definition credit_session_answers : EntryAnswers :=
  mkAnswers None (Some (lit "A test post")) (Some (lit "2025-02-07"))
    (Some (lit "blogging, personal")) (Some (lit "This is a test post."))
    false false false false false
    (Some (lit "a-test-post.jpg")) (Some (lit "A laptop"))
    (Some (lit "Joe Photog")) (Some (lit "https://linktojoe.com")).

(** Sessions of the script with entry types: a note without an image, and
    a note with one. *)
Definition note_session : list Reply :=
  [ Pick Note; Line (lit "A test post"); enter; Line (lit "blogging");
    Line (lit "A note."); YesNo None; YesNo None; YesNo None; YesNo None ].

Definition note_session_answers : EntryAnswers :=
  mkAnswers (Some Note) (Some (lit "A test post")) (Some (lit "2025-02-07"))
    (Some (lit "blogging")) (Some (lit "A note."))
    false false false false false None None None None.

Definition pictured_note_session : list Reply :=
  [ Pick Note; Line (lit "A test post"); enter; Line (lit "blogging");
    Line (lit "A note."); YesNo None; YesNo None; YesNo None;
    YesNo (Some true); enter; enter; Line (lit "A laptop"); enter ].

Definition pictured_note_answers : EntryAnswers :=
  mkAnswers (Some Note) (Some (lit "A test post")) (Some (lit "2025-02-07"))
    (Some (lit "blogging")) (Some (lit "A note."))
    false false false false true
    (Some (lit "a-test-post.jpg")) (Some (lit "A laptop")) (Some []) None.

(** The same for the script with entry types: the type first, and yes to
    the image before the image source. *)
Definition typed_session_to_source (type : EntryType)
  (title date tags description : str) (code snow video : option bool)
  (source : str) : list Reply :=
  [ Pick type; Line title; Line date; Line tags; Line description;
    YesNo code; YesNo snow; YesNo video; YesNo (Some true); Line source ].

(** The review loop of a script; the last two scripts have none and go on
    with the answers of the prompt. *)
Definition review (v : Script)
  : str -> EntryAnswers -> list Reply -> Run EntryAnswers :=
  match v with
  | Youtube => Youtube.confirmOrEditYaml
  | Credit => Credit.confirmOrEditYaml
  | Video => Video.confirmOrEditYaml
  | EntryTyped | Plain => fun _ answers replies => Done answers replies
  end.

(** A bare Enter at every question of the review loop of the first script
    of mkbo.js and the first of part_000: eight questions, and the alt text
    when the image source is not blank. *)
Definition enter_at_all (a : EntryAnswers) : list Reply :=
  [ enter; enter; enter; enter; YesNo None; YesNo None; YesNo None; enter ]
    ++ (if nonblank (imageSource a) then [enter] else []).

(** No to the text, Enter at every question, yes to the text. *)
Definition redo_keeping_all (a : EntryAnswers) : list Reply :=
  YesNo (Some false) :: enter_at_all a ++ [YesNo (Some true)].

(** The questions of the review loop of a script (none in the last two). *)
Definition edit_questions (v : Script) (a : EntryAnswers) : list Question :=
  match v with
  | Youtube => Youtube.edit_questions a
  | Credit => Credit.edit_questions a
  | Video => Video.edit_questions a
  | EntryTyped | Plain => []
  end.

(** A session of the second script of mkbo.js with white space typed as
    image source. *)
Definition blank_source_session : list Reply :=
  session_to_source (lit "A test post") [] (lit "blogging") []
    None None None (lit " ").

(** No answer that the script writes is undefined: the three that are
    always written; the image source with the image block, and the alt text
    too where it is written as it is; the credit person and link with the
    credit lines. *)
Definition nothing_undefined (v : Script) (a : EntryAnswers) : bool :=
  present (title a) && present (description a) && present (date a)
  && (negb (shows_image v a)
      || (present (imageSource a)
          && (source_gated v || present (imageAlt a))))
  && (negb (shows_credit v a)
      || (present (creditPerson a) && present (creditLink a))).

(* ================================================================== *)
(** * Properties *)

(** ** Splitting and joining *)

Section Split.

Variable sep : ascii.

Lemma split_on_nonempty (s : str) : split_on sep s <> [].
Proof.
  destruct s as [|c r]; simpl; [discriminate|].
  destruct (Ascii.eqb c sep); [discriminate|].
  destruct (split_on sep r); discriminate.
Qed.

Lemma split_on_app (a b : str) :
  split_on sep (a ++ sep :: b) = split_on sep a ++ split_on sep b.
Proof.
  induction a as [|c a IH]; simpl.
  - now rewrite Ascii.eqb_refl.
  - destruct (Ascii.eqb c sep); [now rewrite IH|].
    rewrite IH.
    destruct (split_on sep a) as [|h t] eqn:E; [|reflexivity].
    now apply split_on_nonempty in E.
Qed.

Lemma split_on_whole (s : str) : ~ In sep s -> split_on sep s = [s].
Proof.
  induction s as [|c r IH]; simpl; intros H; [reflexivity|].
  destruct (Ascii.eqb_spec c sep) as [->|_]; [exfalso; auto|].
  rewrite IH; auto.
Qed.

Lemma split_on_free (s : str) : Forall (fun p => ~ In sep p) (split_on sep s).
Proof.
  induction s as [|c r IH]; simpl.
  - constructor; auto.
  - destruct (Ascii.eqb_spec c sep) as [->|N].
    + constructor; auto.
    + destruct (split_on sep r) as [|h t]; constructor.
      * simpl; tauto.
      * constructor.
      * inversion IH; subst. simpl. intros [E|I]; [now apply N|auto].
      * now inversion IH.
Qed.

Lemma join_split_on (s : str) : join [sep] (split_on sep s) = s.
Proof.
  induction s as [|c r IH]; simpl; [reflexivity|].
  destruct (Ascii.eqb_spec c sep) as [->|_].
  - destruct (split_on sep r) as [|h t] eqn:E.
    + now apply split_on_nonempty in E.
    + simpl. now rewrite <- IH.
  - destruct (split_on sep r) as [|h t] eqn:E.
    + now apply split_on_nonempty in E.
    + rewrite <- IH. destruct t; reflexivity.
Qed.

Lemma length_split_on (s : str) :
  List.length (split_on sep s) = S (count_occ ascii_dec s sep).
Proof.
  induction s as [|c r IH]; simpl; [reflexivity|].
  destruct (Ascii.eqb_spec c sep) as [->|N].
  - simpl. rewrite IH. now destruct (ascii_dec sep sep).
  - destruct (ascii_dec c sep); [contradiction|].
    rewrite <- IH.
    destruct (split_on sep r) as [|h t] eqn:E; [|reflexivity].
    now apply split_on_nonempty in E.
Qed.

End Split.

Lemma unlines_app (a b : list str) : unlines (a ++ b) = unlines a ++ unlines b.
Proof. apply flat_map_app. Qed.

Lemma lines_unlines (ls : list str) (rest : str) :
  Forall single_line ls -> lines (unlines ls ++ rest) = ls ++ lines rest.
Proof.
  unfold lines. induction 1 as [|l ls Hl _ IH]; simpl; [reflexivity|].
  rewrite <- !app_assoc. simpl.
  rewrite split_on_app, IH, split_on_whole by exact Hl.
  reflexivity.
Qed.

(** A line that holds no line feed is found whatever the other lines hold. *)
Lemma has_line_unlines (l : str) (ls : list str) (rest : str) :
  In l ls -> single_line l -> has_line l (unlines ls ++ rest).
Proof.
  unfold has_line, lines. intros I Hl.
  apply in_split in I as (before & after & ->).
  rewrite unlines_app. simpl. rewrite <- !app_assoc. simpl.
  destruct before as [|b before] using rev_ind.
  - simpl. rewrite split_on_app, split_on_whole by exact Hl. now left.
  - rewrite unlines_app. simpl. rewrite <- !app_assoc. simpl.
    rewrite (app_assoc (unlines before) b), (split_on_app nl (_ ++ b)).
    rewrite split_on_app, (split_on_whole nl l Hl).
    apply in_or_app. right. now left.
Qed.

(** ** The printed tags *)

Lemma json_escape_one_line (c : ascii) : single_line (json_escape c).
Proof.
  unfold single_line.
  destruct c as [[] [] [] [] [] [] [] []]; vm_compute;
    intuition discriminate.
Qed.

Lemma json_quote_one_line (s : str) : single_line (json_quote s).
Proof.
  unfold single_line, json_quote. simpl.
  intros [E|I]; [discriminate|].
  apply in_app_or in I as [I|[E|[]]]; [|discriminate].
  apply in_flat_map in I as (c & _ & I).
  now apply (json_escape_one_line c).
Qed.

Lemma single_line_app (a b : str) :
  single_line a -> single_line b -> single_line (a ++ b).
Proof.
  unfold single_line. intros Ha Hb I.
  apply in_app_or in I. tauto.
Qed.

Lemma single_line_cons (c : ascii) (s : str) :
  c <> nl -> single_line s -> single_line (c :: s).
Proof.
  unfold single_line. intros Hc Hs [E|I]; [now apply Hc|auto].
Qed.

Lemma single_line_nil : single_line [].
Proof. intros []. Qed.

Ltac oneline :=
  repeat match goal with
    | |- single_line _ => assumption
    | |- single_line (json_quote _) => apply json_quote_one_line
    | |- single_line (_ ++ _) => apply single_line_app
    | |- single_line (_ :: _) => apply single_line_cons; [discriminate|]
    | |- single_line [] => apply single_line_nil
    | |- single_line (lit _) => progress cbn [lit]
    end.

Lemma item_lines_one_line (arr : list str) :
  Forall single_line (item_lines arr).
Proof.
  induction arr as [|e [|e' rest] IH]; cbn [item_lines]; constructor;
    auto; oneline. 
Qed.

Lemma tag_lines_one_line (arr : list str) : Forall single_line (tag_lines arr).
Proof.
  destruct arr as [|e rest]; unfold tag_lines.
  - repeat constructor; oneline.
  - apply Forall_app. split; [|apply Forall_app; split].
    + repeat constructor; oneline.
    + apply item_lines_one_line.
    + repeat constructor; oneline.
Qed.

(** Appends to the right, literals spelled out. *)
Ltac flatten :=
  repeat (progress (rewrite <- ?app_assoc; cbn [app lit unlines flat_map]));
  rewrite ?app_nil_r.

Lemma items_text (e : str) (rest : list str) :
  join [comma; nl] (map (fun e => lit "  " ++ json_quote e) (e :: rest))
    ++ [nl]
  = unlines (item_lines (e :: rest)).
Proof.
  revert e. induction rest as [|e' rest IH]; intros e.
  - simpl. now rewrite app_nil_r.
  - change (item_lines (e :: e' :: rest))
      with ((lit "  " ++ json_quote e ++ [comma]) :: item_lines (e' :: rest)).
    change (unlines (?x :: ?r)) with ((x ++ [nl]) ++ unlines r).
    rewrite <- IH. simpl. rewrite <- !app_assoc. reflexivity.
Qed.

Lemma tags_text (arr : list str) :
  lit "tags: " ++ JSON_stringify arr ++ [nl] = unlines (tag_lines arr).
Proof.
  destruct arr as [|e rest]; [reflexivity|].
  unfold JSON_stringify, tag_lines. rewrite !unlines_app, <- items_text.
  simpl. rewrite <- !app_assoc. reflexivity.
Qed.

Lemma opening_text (a : EntryAnswers) (arr : list str) :
  opening a arr = unlines (head_lines a ++ tag_lines arr).
Proof.
  unfold opening. rewrite unlines_app, <- tags_text.
  unfold head_lines. flatten. reflexivity.
Qed.

(** ** The scripts write the layout *)

Lemma flag_text (U k : str) (b : bool) :
  (if b then U ++ k ++ interp_bool b ++ [nl] else U)
  = U ++ unlines (if b then [k ++ lit "true"] else []).
Proof.
  destruct b; cbn [interp_bool unlines flat_map]; flatten; reflexivity.
Qed.

Lemma generate_layout (v : Script) (a : EntryAnswers) :
  complete v a = true ->
  exists t, title a = Some t /\
    generate v a = Normal (unlines (layout v a) ++ lit "---", slugify t).
Proof.
  intros H.
  destruct a as [et [t|] d tg ds pc sn py pv hi src alt cp cl];
    [|discriminate H].
  exists t. split; [reflexivity|].
  unfold layout, flag_lines. rewrite !unlines_app.
  destruct v; unfold generate.
  all: unfold Youtube.generateYamlContent, Credit.generateYamlContent,
         Video.generateYamlContent, EntryTyped.generateYamlContent,
         Plain.generateYamlContent.
  all: cbn [bind slugify_lower title].
  all: rewrite opening_text, unlines_app, !flag_text.
  all: generalize (unlines (head_lines (mkAnswers et (Some t) d tg ds pc sn
                     py pv hi src alt cp cl)));
       generalize (unlines (tag_lines (tagsArray_of (mkAnswers et (Some t) d
                     tg ds pc sn py pv hi src alt cp cl))));
       intros T U.
  all: unfold complete, flag_line, image_lines, credit_lines, draft_lines,
         shows_credit, shows_image, alt_text, flag_value, flag_key,
         not_blank, trim_of, nonblank in H |- *.
  all: cbn [pageHasCode pageHasYoutube pageHasVideo snow hasImage title
            imageSource imageAlt creditPerson creditLink lit app] in H |- *.
  all: try destruct hi; cbn [negb orb andb present] in H |- *.
  all: try (destruct src as [s|]; try discriminate H;
            cbn [bind present negb orb andb] in H |- *;
            destruct (negb (str_eqb (trim s) []));
            cbn [negb orb andb] in H |- *).
  all: try (destruct cp as [p|]; try discriminate H; cbn [bind];
            try destruct (negb (str_eqb (trim p) []))).
  all: cbn [bind andb]; flatten; reflexivity.
Qed.

Lemma one_line_spec (v : option str) :
  one_line v = true -> single_line (interp v).
Proof.
  unfold one_line, single_line. intros H I.
  apply negb_true_iff in H.
  assert (E : existsb (Ascii.eqb nl) (interp v) = true).
  { apply existsb_exists. exists nl. split; [exact I|apply Ascii.eqb_refl]. }
  congruence.
Qed.

Lemma layout_one_line (v : Script) (a : EntryAnswers) :
  answers_one_line a = true -> Forall single_line (layout v a).
Proof.
  unfold answers_one_line. intros H.
  repeat (apply andb_prop in H as [H ?]).
  repeat match goal with
    | X : one_line _ = true |- _ => apply one_line_spec in X
    end.
  assert (Ha : single_line (interp (imageAlt a))) by assumption.
  assert (Hor : single_line (or_empty (imageAlt a))).
  { unfold or_empty. destruct (truthy (imageAlt a)); [exact Ha|oneline]. }
  assert (Hal : single_line (alt_text v a)) by (destruct v; assumption).
  assert (F : forall f, Forall single_line (flag_line v f a)).
  { intros f. unfold flag_line.
    destruct (flag_value v f a); repeat constructor.
    destruct v, f; cbn [flag_key]; oneline. }
  assert (L1 : Forall single_line (head_lines a))
    by (unfold head_lines; repeat constructor; oneline).
  assert (L2 : Forall single_line (image_lines v a))
    by (unfold image_lines; destruct (shows_image v a);
        repeat constructor; oneline).
  assert (L3 : Forall single_line (credit_lines v a))
    by (unfold credit_lines; destruct (shows_credit v a);
        repeat constructor; oneline).
  assert (L4 : Forall single_line (draft_lines v))
    by (destruct v; repeat constructor; oneline).
  unfold layout, flag_lines.
  repeat (apply Forall_app; split); auto using tag_lines_one_line.
Qed.

(** The script returns exactly on complete answers. *)
Lemma generate_returns (v : Script) (a : EntryAnswers) :
  complete v a = true <-> exists r, generate v a = Normal r.
Proof.
  split.
  - intros H. destruct (generate_layout v a H) as (t & _ & G). eauto.
  - intros [r G].
    destruct (complete v a) eqn:E; [reflexivity|exfalso].
    destruct a as [et t d tg ds pc sn py pv hi src alt cp cl].
    destruct v; unfold generate, complete in *.
    all: unfold Youtube.generateYamlContent, Credit.generateYamlContent,
           Video.generateYamlContent, EntryTyped.generateYamlContent,
           Plain.generateYamlContent in G.
    all: unfold shows_image, nonblank, not_blank, trim_of in *.
    all: cbn [title hasImage imageSource creditPerson] in *.
    all: destruct t as [t|]; [|discriminate G];
         cbn [bind slugify_lower present andb] in *.
    all: try discriminate E.
    all: try destruct hi; cbn [negb orb andb] in *; try discriminate E.
    all: destruct src as [s|]; [|discriminate G];
         cbn [bind present andb] in *; try discriminate E.
    all: destruct (negb (str_eqb (trim s) []));
         cbn [negb orb] in *; try discriminate E.
    all: destruct cp; [discriminate E|discriminate G].
Qed.

(** ** Which line can be where *)

Lemma starts_with_clash (p q l : str) :
  starts_with p l = true -> starts_with q l = true ->
  starts_with p q = true \/ starts_with q p = true.
Proof.
  revert q l. induction p as [|a p IH]; intros q l Hp Hq; [now left|].
  destruct q as [|b q]; [now right|].
  destruct l as [|c l]; [discriminate|]. simpl in *.
  apply andb_prop in Hp as [Ea Hp]. apply andb_prop in Hq as [Eb Hq].
  apply Ascii.eqb_eq in Ea, Eb. subst.
  rewrite Ascii.eqb_refl. simpl. eauto.
Qed.

Lemma starts_with_app (p s : str) : starts_with p (p ++ s) = true.
Proof.
  induction p as [|a p IH]; simpl; [reflexivity|].
  now rewrite Ascii.eqb_refl.
Qed.

Lemma item_lines_shape (arr : list str) (l : str) :
  In l (item_lines arr) -> starts_with item_prefix l = true.
Proof.
  induction arr as [|e [|e' rest] IH]; cbn [item_lines]; intros I.
  - destruct I.
  - destruct I as [<-|[]]. reflexivity.
  - destruct I as [<-|I]; [reflexivity|auto].
Qed.

Lemma tag_lines_shape (arr : list str) (l : str) :
  In l (tag_lines arr) ->
  starts_with (lit "tags: [") l = true
  \/ starts_with item_prefix l = true
  \/ l = lit "]".
Proof.
  destruct arr as [|e rest]; unfold tag_lines; intros I.
  - destruct I as [<-|[]]. now left.
  - apply in_app_or in I as [[<-|[]]|I]; [now left|].
    apply in_app_or in I as [I|[<-|[]]]; [|now right; right].
    right; left. now apply item_lines_shape in I.
Qed.

Lemma tag_lines_first (arr : list str) :
  exists l, In l (tag_lines arr) /\ starts_with (lit "tags: ") l = true
            /\ single_line l.
Proof.
  destruct arr as [|e rest].
  - exists (lit "tags: []"). repeat split; [now left|oneline].
  - exists (lit "tags: ["). repeat split; [now left|oneline].
Qed.

(** Two prefixes of one line, neither a prefix of the other. *)
Ltac clash H1 H2 :=
  let C := fresh in
  destruct (starts_with_clash _ _ _ H1 H2) as [C|C];
  vm_compute in C; discriminate C.

(** Takes apart the membership of a line in the layout: one goal for each
    place where the line can be. *)
Ltac where_in_layout :=
  unfold layout, head_lines, flag_lines, flag_line, image_lines,
    credit_lines in *;
  repeat match goal with
    | H : In _ (_ ++ _) |- _ => apply in_app_or in H; destruct H as [H|H]
    | H : In _ (tag_lines _) |- _ =>
        apply tag_lines_shape in H; destruct H as [H|[H|H]]
    | H : In _ (draft_lines ?v) |- _ => destruct v; cbn [draft_lines] in H
    | H : In _ (if ?b then _ else _) |- _ => destruct b eqn:?
    | H : In _ (_ :: _) |- _ => destruct H as [H|H]
    | H : In _ [] |- _ => destruct H
    end.

(** A place is ruled out by the first characters of its line. *)
Ltac wrong_place :=
  match goal with
  | H : _ = _ :> str |- _ =>
      cbn [lit app flag_key] in H; discriminate H
  | H : starts_with _ _ = true |- _ =>
      cbn [lit app flag_key starts_with item_prefix] in H; discriminate H
  | H : _ = ?l, H1 : starts_with _ ?l = true |- _ =>
      subst l; cbn in H1; discriminate H1
  | H : ?l = _, H1 : starts_with _ ?l = true |- _ =>
      subst l; cbn in H1; discriminate H1
  | H1 : starts_with _ ?l = true, H2 : starts_with _ ?l = true |- _ =>
      clash H1 H2
  end.

Lemma flag_true_line (v : Script) (f : Flag) (a : EntryAnswers) :
  In (flag_key v f ++ lit ": true") (layout v a ++ [lit "---"])
  -> flag_value v f a = true.
Proof.
  intros I. destruct v, f; cbn [flag_key flag_value] in *.
  all: where_in_layout; try wrong_place; assumption.
Qed.

Lemma flag_line_found (v : Script) (f : Flag) (a : EntryAnswers) :
  flag_value v f a = true -> In (flag_key v f ++ lit ": true") (layout v a).
Proof.
  intros H. unfold layout, flag_lines.
  assert (I : In (flag_key v f ++ lit ": true") (flag_line v f a))
    by (unfold flag_line; rewrite H; now left).
  rewrite !in_app_iff. destruct f; tauto.
Qed.

Lemma flag_false_line (v : Script) (f : Flag) (a : EntryAnswers) :
  ~ In (flag_key v f ++ lit ": false") (layout v a ++ [lit "---"]).
Proof.
  intros I. destruct v, f; cbn [flag_key flag_value] in *.
  all: where_in_layout; wrong_place.
Qed.

Lemma flag_key_one_line (v : Script) (f : Flag) (s : string) :
  single_line (lit s) -> single_line (flag_key v f ++ lit s).
Proof. intros H. destruct v, f; cbn [flag_key]; oneline. Qed.

(** ** The text of a script *)

Lemma generate_text (v : Script) (a : EntryAnswers) :
  complete v a = true ->
  exists t, title a = Some t /\ generate v a = Normal (text v a, slugify t).
Proof. apply generate_layout. Qed.

Lemma text_lines (v : Script) (a : EntryAnswers) :
  answers_one_line a = true -> lines (text v a) = layout v a ++ [lit "---"].
Proof.
  intros H. unfold text.
  now rewrite lines_unlines by now apply layout_one_line.
Qed.

Lemma text_has_line (v : Script) (a : EntryAnswers) (l : str) :
  In l (layout v a) -> single_line l -> has_line l (text v a).
Proof. intros. now apply has_line_unlines. Qed.

(** ** Flags *)

(** C4: for each of the three flags, the front matter has the line of the
    flag, [key: true], if and only if the flag is set, and it never has the
    line [key: false].  The key is the one the script writes; the answers
    are those of input prompts, without line feeds. *)
Theorem flag_line_iff_flag (v : Script) (f : Flag) (a : EntryAnswers) :
  complete v a = true -> answers_one_line a = true ->
  exists yaml slug,
    generate v a = Normal (yaml, slug)
    /\ (has_line (flag_key v f ++ lit ": true") yaml
        <-> flag_value v f a = true)
    /\ ~ has_line (flag_key v f ++ lit ": false") yaml.
Proof.
  intros Hc Ho.
  destruct (generate_text v a Hc) as (t & _ & G).
  exists (text v a), (slugify t). split; [exact G|].
  unfold has_line. rewrite (text_lines v a Ho). split; [split|].
  - apply flag_true_line.
  - intros H. apply in_or_app. left. now apply flag_line_found.
  - apply flag_false_line.
Qed.

Lemma flag_line_iff_flag_witness :
  exists yaml slug,
    generate Youtube flagged_answers = Normal (yaml, slug)
    /\ (has_line (flag_key Youtube VideoFlag ++ lit ": true") yaml
        <-> flag_value Youtube VideoFlag flagged_answers = true)
    /\ ~ has_line (flag_key Youtube VideoFlag ++ lit ": false") yaml.
Proof.
  apply (flag_line_iff_flag Youtube VideoFlag flagged_answers);
    reflexivity.
Defined.

(** C8: in the first script of mkbo.js, a set [pageHasYoutube] is written
    under the key [pageHapageHasYoutubesVideo]; with one-line answers no line
    begins with the name of the flag. *)
Theorem youtube_key_misspelled (a : EntryAnswers) :
  complete Youtube a = true -> pageHasYoutube a = true ->
  exists yaml slug,
    generate Youtube a = Normal (yaml, slug)
    /\ has_line (lit "pageHapageHasYoutubesVideo: true") yaml
    /\ (answers_one_line a = true ->
        ~ has_line_from (lit "pageHasYoutube") yaml).
Proof.
  intros Hc Hy.
  destruct (generate_text Youtube a Hc) as (t & _ & G).
  exists (text Youtube a), (slugify t). split; [exact G|]. split.
  - apply text_has_line; [|oneline].
    apply (flag_line_found Youtube VideoFlag a Hy).
  - intros Ho (l & I & P). rewrite (text_lines _ a Ho) in I.
    where_in_layout; wrong_place.
Qed.

Lemma youtube_key_misspelled_witness :
  exists yaml slug,
    generate Youtube flagged_answers = Normal (yaml, slug)
    /\ has_line (lit "pageHapageHasYoutubesVideo: true") yaml
    /\ (answers_one_line flagged_answers = true ->
        ~ has_line_from (lit "pageHasYoutube") yaml).
Proof.
  apply (youtube_key_misspelled flagged_answers); reflexivity.
Defined.

(** ** Tags *)

(** C5: the tags line is never left out: every front matter has a line that
    begins with [tags: ], and with the tags empty or unset that line is
    [tags: []]. *)
Theorem empty_tags_line (v : Script) (a : EntryAnswers) :
  complete v a = true ->
  exists yaml slug,
    generate v a = Normal (yaml, slug)
    /\ has_line_from (lit "tags: ") yaml
    /\ (tags a = None \/ tags a = Some [] -> has_line (lit "tags: []") yaml).
Proof.
  intros Hc.
  destruct (generate_text v a Hc) as (t & _ & G).
  exists (text v a), (slugify t). split; [exact G|]. split.
  - destruct (tag_lines_first (tagsArray_of a)) as (l & I & P & O).
    exists l. split; [|exact P].
    apply text_has_line; [|exact O].
    unfold layout. rewrite !in_app_iff. tauto.
  - intros E. apply text_has_line; [|oneline].
    assert (T : tagsArray_of a = [])
      by (unfold tagsArray_of; destruct E as [-> | ->]; reflexivity).
    unfold layout. rewrite T, !in_app_iff. right; left. now left.
Qed.

Lemma empty_tags_line_witness :
  exists yaml slug,
    generate Credit untagged_answers = Normal (yaml, slug)
    /\ has_line_from (lit "tags: ") yaml
    /\ (tags untagged_answers = None \/ tags untagged_answers = Some [] ->
        has_line (lit "tags: []") yaml).
Proof.
  apply (empty_tags_line Credit untagged_answers). reflexivity.
Defined.

(** ** The image block *)

Lemma image_block_shown (v : Script) (a : EntryAnswers) :
  answers_one_line a = true ->
  (has_image_block (text v a) <-> shows_image v a = true).
Proof.
  intros Ho. unfold has_image_block, has_block.
  rewrite (text_lines v a Ho). split.
  - intros (src & alt & before & after & E).
    assert (I : In (lit "image:") (layout v a ++ [lit "---"]))
      by (rewrite E, !in_app_iff; right; left; now left).
    clear E. destruct v; where_in_layout; try wrong_place;
      first [assumption | reflexivity].
  - intros H.
    exists (interp (imageSource a)), (alt_text v a).
    exists (head_lines a ++ tag_lines (tagsArray_of a) ++ flag_lines v a).
    exists (credit_lines v a ++ draft_lines v ++ [lit "---"]).
    unfold layout, image_lines. rewrite H, <- !app_assoc. reflexivity.
Qed.

(** C1, as the code has it: the front matter contains the image block if
    and only if, in the three scripts with a review loop, the trimmed image
    source is not empty; in the script with entry types, [hasImage] is set
    and the trimmed image source is not empty; the last script of part_000
    has no such test and writes the block always. *)
Theorem image_block_iff_source (v : Script) (a : EntryAnswers) :
  complete v a = true -> answers_one_line a = true ->
  exists yaml slug,
    generate v a = Normal (yaml, slug)
    /\ (has_image_block yaml <->
        match v with
        | Youtube | Credit | Video => nonblank (imageSource a) = true
        | EntryTyped =>
            hasImage a = true /\ nonblank (imageSource a) = true
        | Plain => True
        end).
Proof.
  intros Hc Ho.
  destruct (generate_text v a Hc) as (t & _ & G).
  exists (text v a), (slugify t). split; [exact G|].
  rewrite (image_block_shown v a Ho).
  destruct v; cbn [shows_image]; try tauto.
  apply andb_true_iff.
Qed.

Lemma image_block_iff_source_witness :
  exists yaml slug,
    generate EntryTyped flagged_answers = Normal (yaml, slug)
    /\ (has_image_block yaml <->
        hasImage flagged_answers = true
        /\ nonblank (imageSource flagged_answers) = true).
Proof.
  apply (image_block_iff_source EntryTyped flagged_answers); reflexivity.
Defined.

(** C1 as stated fails: the last script of part_000 has no [hasImage] test,
    yet with the image source left blank it writes the image block: there
    the block is not equivalent to a source that is not blank. *)
Lemma plain_blank_source_image_block :
  exists yaml slug,
    generate Plain blank_source_answers = Normal (yaml, slug)
    /\ imageSource blank_source_answers = Some []
    /\ has_image_block yaml
    /\ ~ (has_image_block yaml
          <-> nonblank (imageSource blank_source_answers) = true).
Proof.
  destruct (generate_text Plain blank_source_answers eq_refl) as (t & _ & G).
  exists (text Plain blank_source_answers), (slugify t).
  assert (B : has_image_block (text Plain blank_source_answers))
    by now apply image_block_shown.
  split; [exact G|]. split; [reflexivity|]. split; [exact B|].
  intros [H _]. specialize (H B). discriminate H.
Qed.

(** ** The alt text *)

Lemma alt_line_coalesced (v : Script) (a : EntryAnswers) :
  source_gated v = true -> answers_one_line a = true ->
  nonblank (imageSource a) = true -> imageAlt a = None ->
  has_block [lit "image:"; lit "  source: " ++ interp (imageSource a);
             lit "  alt: "] (text v a)
  /\ ~ has_line_from (lit "  alt: undefined") (text v a).
Proof.
  intros Hv Ho Hs Ha.
  assert (Hi : shows_image v a = true) by (destruct v; easy).
  assert (Ht : alt_text v a = [])
    by (destruct v; try discriminate Hv; cbn [alt_text]; now rewrite Ha).
  unfold has_block, has_line_from. rewrite (text_lines v a Ho). split.
  - exists (head_lines a ++ tag_lines (tagsArray_of a) ++ flag_lines v a).
    exists (credit_lines v a ++ draft_lines v ++ [lit "---"]).
    unfold layout, image_lines.
    rewrite Hi, Ht, app_nil_r, <- !app_assoc. reflexivity.
  - intros (l & I & P). unfold layout, image_lines in I.
    rewrite Hi, Ht in I. destruct v; where_in_layout; wrong_place.
Qed.

(** C10, as the code has it: in the three scripts that test the image source
    alone, when the trimmed image source is not empty and [imageAlt] is
    unset, the image block has the line [  alt: ] with nothing after it, and
    no line reads [  alt: undefined]. *)
Theorem absent_alt_is_empty (v : Script) (a : EntryAnswers) :
  source_gated v = true ->
  complete v a = true -> answers_one_line a = true ->
  nonblank (imageSource a) = true -> imageAlt a = None ->
  exists yaml slug,
    generate v a = Normal (yaml, slug)
    /\ has_block [lit "image:"; lit "  source: " ++ interp (imageSource a);
                  lit "  alt: "] yaml
    /\ ~ has_line_from (lit "  alt: undefined") yaml.
Proof.
  intros Hv Hc Ho Hs Ha.
  destruct (generate_text v a Hc) as (t & _ & G).
  exists (text v a), (slugify t). split; [exact G|].
  now apply alt_line_coalesced.
Qed.

Lemma absent_alt_is_empty_witness :
  exists yaml slug,
    generate Credit no_alt_answers = Normal (yaml, slug)
    /\ has_block [lit "image:";
                  lit "  source: " ++ interp (imageSource no_alt_answers);
                  lit "  alt: "] yaml
    /\ ~ has_line_from (lit "  alt: undefined") yaml.
Proof.
  apply (absent_alt_is_empty Credit no_alt_answers); reflexivity.
Defined.

(** C10 as stated fails twice.  In the first script a space as image source
    is an image source that is not empty, yet the block and its alt line are
    left out; and the last script of part_000, which has no [hasImage] test
    either, writes an unset alt text as [undefined]. *)
Lemma absent_alt_not_always_empty :
  (exists yaml slug,
     generate Youtube space_source_answers = Normal (yaml, slug)
     /\ truthy (imageSource space_source_answers) = true
     /\ imageAlt space_source_answers = None
     /\ ~ has_line_from (lit "  alt:") yaml)
  /\
  (exists yaml slug,
     generate Plain no_alt_answers = Normal (yaml, slug)
     /\ truthy (imageSource no_alt_answers) = true
     /\ imageAlt no_alt_answers = None
     /\ has_line (lit "  alt: undefined") yaml).
Proof.
  split.
  - destruct (generate_text Youtube space_source_answers eq_refl)
      as (t & _ & G).
    exists (text Youtube space_source_answers), (slugify t).
    split; [exact G|]. split; [reflexivity|]. split; [reflexivity|].
    intros (l & I & P).
    rewrite (text_lines Youtube space_source_answers eq_refl) in I.
    vm_compute in I.
    repeat (destruct I as [<-|I]; [vm_compute in P; discriminate P|]).
    destruct I.
  - destruct (generate_text Plain no_alt_answers eq_refl) as (t & _ & G).
    exists (text Plain no_alt_answers), (slugify t).
    split; [exact G|]. split; [reflexivity|]. split; [reflexivity|].
    apply text_has_line; [|oneline].
    vm_compute. tauto.
Qed.

(** ** Splitting the tags *)

Lemma tags_block (v : Script) (a : EntryAnswers) :
  answers_one_line a = true ->
  has_block (tag_lines (tagsArray_of a)) (text v a).
Proof.
  intros Ho. unfold has_block. rewrite (text_lines v a Ho).
  exists (head_lines a).
  exists (flag_lines v a ++ image_lines v a ++ credit_lines v a
            ++ draft_lines v ++ [lit "---"]).
  unfold layout. now rewrite <- !app_assoc.
Qed.

(** C9: tags that are not empty are cut at every comma and nothing else is
    done to the pieces but trimming: the pieces joined with commas are the
    input again, no piece holds a comma, there is one piece more than there
    are commas, and the tags written are the trimmed pieces in that order,
    one line each in the front matter. *)
Theorem tags_split_keeps_all (v : Script) (a : EntryAnswers) (s : str) :
  tags a = Some s -> s <> [] ->
  complete v a = true -> answers_one_line a = true ->
  exists pieces yaml slug,
    join [comma] pieces = s
    /\ Forall (fun p => ~ In comma p) pieces
    /\ List.length pieces = S (count_occ ascii_dec s comma)
    /\ tagsArray_of a = map trim pieces
    /\ generate v a = Normal (yaml, slug)
    /\ has_block ([lit "tags: ["] ++ item_lines (map trim pieces) ++ [lit "]"])
                 yaml.
Proof.
  intros Ht Hs Hc Ho.
  destruct (generate_text v a Hc) as (t & _ & G).
  exists (split_on comma s), (text v a), (slugify t).
  assert (T : tagsArray_of a = map trim (split_on comma s)).
  { unfold tagsArray_of. rewrite Ht. destruct s; [contradiction|reflexivity]. }
  repeat split; auto using join_split_on, split_on_free, length_split_on.
  pose proof (tags_block v a Ho) as B. rewrite T in B.
  unfold tag_lines in B.
  destruct (map trim (split_on comma s)) eqn:E; [|exact B].
  apply map_eq_nil in E. now apply split_on_nonempty in E.
Qed.

Lemma tags_split_keeps_all_witness :
  exists pieces yaml slug,
    join [comma] pieces = lit "a,,b"
    /\ Forall (fun p => ~ In comma p) pieces
    /\ List.length pieces = S (count_occ ascii_dec (lit "a,,b") comma)
    /\ tagsArray_of gapped_tags_answers = map trim pieces
    /\ generate Video gapped_tags_answers = Normal (yaml, slug)
    /\ has_block ([lit "tags: ["] ++ item_lines (map trim pieces) ++ [lit "]"])
                 yaml.
Proof.
  apply (tags_split_keeps_all Video gapped_tags_answers (lit "a,,b"));
    [reflexivity|discriminate|reflexivity|reflexivity].
Defined.

Example tags_with_gap :
  tagsArray_of gapped_tags_answers = [lit "a"; []; lit "b"]
  /\ JSON_stringify (tagsArray_of gapped_tags_answers)
     = lit "[" ++ [nl]
       ++ lit "  " ++ [dquote] ++ lit "a" ++ [dquote; comma; nl]
       ++ lit "  " ++ [dquote; dquote; comma; nl]
       ++ lit "  " ++ [dquote] ++ lit "b" ++ [dquote; nl]
       ++ lit "]".
Proof. split; reflexivity. Qed.

(** ** The script with entry types *)

(** C6: in the script with entry types, the file of an entry of type Note
    is written to [<base>/notes/<slug of the title>.md], and whatever the
    answers the front matter ends with the line [draft: true] and the
    closing delimiter. *)
Theorem note_path_and_draft (a : EntryAnswers) (rest : list Reply) :
  complete EntryTyped a = true ->
  exists t yaml body,
    title a = Some t
    /\ EntryTyped.generateYamlContent a = Normal (yaml, slugify t)
    /\ EntryTyped.write_entry a rest
       = Done (mkWrite (EntryTyped.filePath a (slugify t)) yaml) rest
    /\ (entryType a = Some Note ->
        EntryTyped.filePath a (slugify t)
        = EntryTyped.BASE_DIR ++ lit "notes/" ++ slugify t ++ lit ".md")
    /\ yaml = body ++ [nl] ++ lit "draft: true" ++ [nl] ++ lit "---".
Proof.
  intros Hc.
  destruct (generate_text EntryTyped a Hc) as (t & Ht & G).
  cbn [generate] in G.
  exists t, (text EntryTyped a).
  exists (removelast (unlines (head_lines a ++ tag_lines (tagsArray_of a)
                                ++ flag_lines EntryTyped a
                                ++ image_lines EntryTyped a
                                ++ credit_lines EntryTyped a))).
  repeat split; auto.
  - unfold EntryTyped.write_entry. now rewrite G.
  - intros E. unfold EntryTyped.filePath, EntryTyped.targetDir.
    rewrite E. cbn [EntryTyped.entryTypeToDir]. flatten. reflexivity.
  - unfold text, layout.
    rewrite !app_assoc, unlines_app, <- !app_assoc.
    set (L := head_lines a ++ _).
    assert (E : exists l ls, L = ls ++ [l]).
    { destruct (exists_last (l := L)) as (ls & l & E);
        [subst L; discriminate|eauto]. }
    destruct E as (l & ls & ->).
    rewrite unlines_app. cbn [unlines flat_map draft_lines].
    rewrite app_nil_r, !app_assoc, removelast_last, <- !app_assoc.
    reflexivity.
Qed.

Lemma note_path_and_draft_witness :
  exists t yaml body,
    title flagged_answers = Some t
    /\ EntryTyped.generateYamlContent flagged_answers
       = Normal (yaml, slugify t)
    /\ EntryTyped.write_entry flagged_answers []
       = Done (mkWrite (EntryTyped.filePath flagged_answers (slugify t)) yaml)
              []
    /\ (entryType flagged_answers = Some Note ->
        EntryTyped.filePath flagged_answers (slugify t)
        = EntryTyped.BASE_DIR ++ lit "notes/" ++ slugify t ++ lit ".md")
    /\ yaml = body ++ [nl] ++ lit "draft: true" ++ [nl] ++ lit "---".
Proof.
  apply (note_path_and_draft flagged_answers []). reflexivity.
Defined.

(** ** The slug *)

Module SlugFacts.

Lemma alnum_not_hyphen (c : ascii) :
  is_lower_alnum c = true -> Ascii.eqb c hyphen = false.
Proof.
  destruct (Ascii.eqb_spec c hyphen) as [->|]; [discriminate|reflexivity].
Qed.

Lemma starts_hyphen_cons (c : ascii) (r : str) :
  starts_with [hyphen] (c :: r) = Ascii.eqb c hyphen.
Proof. simpl. now rewrite andb_true_r, Ascii.eqb_sym. Qed.

Lemma to_lower_slug_char (c : ascii) : slug_char c = true -> to_lower c = c.
Proof.
  destruct c as [[] [] [] [] [] [] [] []]; vm_compute;
    first [reflexivity | discriminate].
Qed.

Lemma no_double_spec (s : str) :
  no_double_hyphen s = true <-> double_free s.
Proof.
  unfold double_free. induction s as [|a [|b r] IH].
  - split; [intros _ [|] ? E; discriminate E|reflexivity].
  - split; [|reflexivity].
    intros _ [|x [|y before]] after E; discriminate E.
  - change (no_double_hyphen (a :: b :: r))
      with (negb (Ascii.eqb a hyphen && Ascii.eqb b hyphen)
            && no_double_hyphen (b :: r)).
    rewrite andb_true_iff, IH, negb_true_iff. split.
    + intros [N D] [|x before] after E.
      * injection E as -> ->. now rewrite !Ascii.eqb_refl in N.
      * injection E as _ E. now apply D in E.
    + intros D. split.
      * destruct (Ascii.eqb_spec a hyphen) as [->|]; [|reflexivity].
        destruct (Ascii.eqb_spec b hyphen) as [->|]; [|reflexivity].
        exfalso. now apply (D [] r).
      * intros before after E. apply (D (a :: before) after).
        simpl. now rewrite E.
Qed.

Lemma collapse_runs_chars (b : bool) (s : str) :
  forallb slug_char (collapse_runs b s) = true.
Proof.
  revert b. induction s as [|c r IH]; intros b; simpl; [reflexivity|].
  destruct (is_lower_alnum c) eqn:E.
  - simpl. unfold slug_char at 1. now rewrite E, IH.
  - destruct b; [apply IH|]. simpl. apply IH.
Qed.

Lemma collapse_runs_single (b : bool) (s : str) :
  no_double_hyphen (collapse_runs b s) = true
  /\ (b = true -> starts_with [hyphen] (collapse_runs b s) = false).
Proof.
  revert b. induction s as [|c r IH]; intros b; cbn [collapse_runs];
    [now split|].
  destruct (is_lower_alnum c) eqn:E; [|destruct b].
  - destruct (IH false) as [D _]. split.
    + destruct (collapse_runs false r) as [|x t]; [reflexivity|].
      change (negb (Ascii.eqb c hyphen && Ascii.eqb x hyphen)
              && no_double_hyphen (x :: t) = true).
      now rewrite (alnum_not_hyphen c E), D.
    + intros _. rewrite starts_hyphen_cons. now apply alnum_not_hyphen.
  - apply IH.
  - destruct (IH true) as [D S]. split; [|discriminate].
    specialize (S eq_refl).
    destruct (collapse_runs true r) as [|x t]; [reflexivity|].
    change (negb (Ascii.eqb hyphen hyphen && Ascii.eqb x hyphen)
            && no_double_hyphen (x :: t) = true).
    rewrite starts_hyphen_cons in S.
    now rewrite S, andb_false_r, D.
Qed.

Lemma drop_hyphens_suffix (s : str) :
  exists dropped, s = dropped ++ drop_hyphens s.
Proof.
  induction s as [|c r [d IH]]; simpl; [now exists []|].
  destruct (Ascii.eqb c hyphen).
  - exists (c :: d). simpl. now rewrite <- IH.
  - now exists [].
Qed.

Lemma drop_hyphens_head (s : str) :
  starts_with [hyphen] (drop_hyphens s) = false.
Proof.
  induction s as [|c r IH]; cbn [drop_hyphens]; [reflexivity|].
  destruct (Ascii.eqb c hyphen) eqn:E; [exact IH|].
  now rewrite starts_hyphen_cons.
Qed.

Lemma drop_hyphens_same (s : str) :
  starts_with [hyphen] s = false -> drop_hyphens s = s.
Proof.
  destruct s as [|c r]; [reflexivity|].
  rewrite starts_hyphen_cons. simpl. now intros ->.
Qed.

Lemma drop_hyphens_chars (s : str) :
  forallb slug_char s = true -> forallb slug_char (drop_hyphens s) = true.
Proof.
  destruct (drop_hyphens_suffix s) as [d E]. intros H.
  rewrite E, forallb_app in H. now apply andb_prop in H.
Qed.

Lemma drop_hyphens_double_free (s : str) :
  double_free s -> double_free (drop_hyphens s).
Proof.
  destruct (drop_hyphens_suffix s) as [d E]. intros D before after F.
  apply (D (d ++ before) after). rewrite <- app_assoc, <- F. exact E.
Qed.

Lemma rev_chars (s : str) :
  forallb slug_char s = true -> forallb slug_char (rev s) = true.
Proof.
  rewrite !forallb_forall. intros H c I. apply H. now apply in_rev.
Qed.

Lemma rev_double_free (s : str) : double_free s -> double_free (rev s).
Proof.
  intros D before after E. apply (D (rev after) (rev before)).
  rewrite <- (rev_involutive s), E, rev_app_distr. simpl.
  now rewrite <- !app_assoc.
Qed.

(** Dropping hyphens at the end leaves the first character in place when
    it is not a hyphen. *)
Lemma trim_end_head (s : str) :
  starts_with [hyphen] s = false ->
  starts_with [hyphen] (rev (drop_hyphens (rev s))) = false.
Proof.
  destruct s as [|c r]; [reflexivity|].
  rewrite starts_hyphen_cons. intros N. cbn [rev].
  assert (K : exists z, drop_hyphens (rev r ++ [c]) = z ++ [c]).
  { induction (rev r) as [|x l [z IH]]; simpl.
    - rewrite N. now exists [].
    - destruct (Ascii.eqb x hyphen); [now exists z|now exists (x :: l)]. }
  destruct K as [z ->]. rewrite rev_app_distr. cbn [rev app].
  now rewrite starts_hyphen_cons.
Qed.

Lemma slug_shaped_parts (s : str) :
  slug_shaped s = true <->
  forallb slug_char s = true /\ no_double_hyphen s = true
  /\ starts_with [hyphen] s = false
  /\ starts_with [hyphen] (rev s) = false.
Proof.
  unfold slug_shaped. rewrite !andb_true_iff, !negb_true_iff.
  tauto.
Qed.

Lemma collapse_runs_same (b : bool) (s : str) :
  forallb slug_char s = true -> no_double_hyphen s = true ->
  (b = true -> starts_with [hyphen] s = false) ->
  collapse_runs b s = s.
Proof.
  revert b. induction s as [|c r IH]; intros b A D S; [reflexivity|].
  simpl in A. apply andb_prop in A as [Hc A].
  assert (Dr : no_double_hyphen r = true).
  { destruct r as [|x t]; [reflexivity|].
    change (negb (Ascii.eqb c hyphen && Ascii.eqb x hyphen)
            && no_double_hyphen (x :: t) = true) in D.
    now apply andb_prop in D. }
  simpl. destruct (is_lower_alnum c) eqn:E.
  - f_equal. apply IH; auto. discriminate.
  - unfold slug_char in Hc. rewrite E in Hc. simpl in Hc.
    apply Ascii.eqb_eq in Hc. subst c.
    destruct b.
    + specialize (S eq_refl). rewrite starts_hyphen_cons in S.
      discriminate S.
    + f_equal. apply IH; auto. intros _.
      destruct r as [|x t]; [reflexivity|].
      change (negb (Ascii.eqb hyphen hyphen && Ascii.eqb x hyphen)
              && no_double_hyphen (x :: t) = true) in D.
      apply andb_prop in D as [D _]. rewrite starts_hyphen_cons.
      rewrite Ascii.eqb_refl in D. simpl in D.
      now apply negb_true_iff in D.
Qed.

Lemma slugify_shaped (s : str) : slug_shaped (slugify s) = true.
Proof.
  apply slug_shaped_parts. unfold slugify, trim_hyphens.
  set (x := collapse_runs false (map to_lower s)).
  assert (A : forallb slug_char x = true) by apply collapse_runs_chars.
  assert (D : double_free x)
    by (apply no_double_spec, collapse_runs_single).
  repeat split.
  - now apply rev_chars, drop_hyphens_chars, rev_chars, drop_hyphens_chars.
  - apply no_double_spec.
    now apply rev_double_free, drop_hyphens_double_free, rev_double_free,
      drop_hyphens_double_free.
  - apply trim_end_head, drop_hyphens_head.
  - rewrite rev_involutive. apply drop_hyphens_head.
Qed.

Lemma slugify_fixes_slugs (s : str) : slug_shaped s = true -> slugify s = s.
Proof.
  intros H. apply slug_shaped_parts in H as (A & D & L & T).
  unfold slugify, trim_hyphens.
  assert (M : map to_lower s = s).
  { rewrite forallb_forall in A. clear D L T.
    induction s as [|c r IH]; [reflexivity|]. simpl.
    rewrite to_lower_slug_char by (apply A; now left).
    f_equal. apply IH. intros x I. apply A. now right. }
  rewrite M, (collapse_runs_same false s A D) by discriminate.
  rewrite (drop_hyphens_same s L), (drop_hyphens_same (rev s) T).
  apply rev_involutive.
Qed.

End SlugFacts.

(** C3: the slug is defined on every text; it holds only lower-case letters,
    digits and hyphens, never two hyphens in a row and none at either end;
    and the slug of a slug is that slug. *)
Theorem slugify_idempotent_and_shaped (x : str) :
  slug_shaped (slugify x) = true /\ slugify (slugify x) = slugify x.
Proof.
  split.
  - apply SlugFacts.slugify_shaped.
  - apply SlugFacts.slugify_fixes_slugs, SlugFacts.slugify_shaped.
Qed.

(** ** What the prompts deliver *)

Lemma ask_input_valid (valid : str -> bool) (d : option str)
  (replies : list Reply) (value : str) (rest : list Reply) :
  ask_input valid d replies = Some (value, rest) -> valid value = true.
Proof.
  induction replies as [|r replies IH]; simpl; [discriminate|].
  destruct r as [s| |]; try discriminate.
  match goal with
  | |- context [if valid ?x then _ else _] => destruct (valid x) eqn:E
  end; [|exact IH].
  intros H. injection H as <- _. exact E.
Qed.

Lemma creditLink_set_text (name : TextField) (value : str)
  (a : EntryAnswers) :
  creditLink (set_text name value a)
  = match name with f_creditLink => Some value | _ => creditLink a end.
Proof. destruct a, name; reflexivity. Qed.

Lemma creditLink_set_flag (name : FlagField) (value : bool)
  (a : EntryAnswers) :
  creditLink (set_flag name value a) = creditLink a.
Proof. destruct a, name; reflexivity. Qed.

Lemma creditLink_set_entryType (t : EntryType) (a : EntryAnswers) :
  creditLink (set_entryType t a) = creditLink a.
Proof. destruct a; reflexivity. Qed.

(** Asking questions keeps the links checked. *)
Lemma prompt_link_checked (questions : list Question) :
  Forall checks_link questions ->
  forall a replies a' rest,
    link_checked a -> prompt questions a replies = Done a' rest ->
    link_checked a'.
Proof.
  induction 1 as [|q later Hq _ IH]; intros a replies a' rest La P.
  - simpl in P. now injection P as <- _.
  - destruct q as [name m o|name m d|m choices]; cbn [prompt] in P.
    + destruct (when o a) as [[|]|]; try discriminate P; [|eauto].
      destruct (default o a) as [dflt|]; try discriminate P.
      destruct (ask_input (validate o) dflt replies) as [[value r1]|] eqn:A;
        try discriminate P.
      apply ask_input_valid in A.
      refine (IH _ _ _ _ _ P). intros link E.
      rewrite creditLink_set_text in E.
      destruct name; try (now apply La).
      injection E as <-. simpl in Hq. now rewrite <- Hq.
    + destruct replies as [|[s|b|t] r1]; try discriminate P.
      refine (IH _ _ _ _ _ P). intros link E.
      rewrite creditLink_set_flag in E. now apply La.
    + destruct replies as [|[s|b|t] r1]; try discriminate P.
      destruct (existsb _ choices); try discriminate P.
      refine (IH _ _ _ _ _ P). intros link E.
      rewrite creditLink_set_entryType in E. now apply La.
Qed.

Lemma promptUser_link_checked (v : Script) (today : str)
  (replies : list Reply) (a : EntryAnswers) (rest : list Reply) :
  promptUser v today replies = Done a rest -> link_checked a.
Proof.
  assert (B : link_checked blank_answers) by (intros l E; discriminate E).
  destruct v; cbn [promptUser];
    unfold Youtube.promptUser, Credit.promptUser, Video.promptUser,
      EntryTyped.promptUser, Plain.promptUser, inquirer_prompt;
    apply prompt_link_checked; auto;
    repeat constructor.
Qed.

(** The review loop of the second script keeps the links checked too. *)
Lemma review_link_checked (fuel : nat) :
  forall yaml a replies a' rest,
    link_checked a ->
    review_loop Credit.edit_questions Credit.generateYamlContent fuel
      yaml a replies = Done a' rest ->
    link_checked a'.
Proof.
  induction fuel as [|fuel IH]; intros yaml a replies a' rest La R;
    [discriminate R|].
  cbn [review_loop] in R.
  destruct (ask_accept replies) as [[[|] r1]|]; try discriminate R.
  - now injection R as <- _.
  - unfold inquirer_prompt in R.
    destruct (prompt (Credit.edit_questions a) blank_answers r1)
      as [a1 r2| |] eqn:P; try discriminate R.
    cbn [and_then] in R.
    destruct (Credit.generateYamlContent a1) as [[y sl]|];
      try discriminate R.
    cbn [returned and_then fst] in R.
    refine (IH _ _ _ _ _ _ R).
    assert (Q : Forall checks_link (Credit.edit_questions a))
      by (repeat constructor).
    refine (prompt_link_checked _ Q _ _ _ _ _ P).
    intros link E. discriminate E.
Qed.

(** ** The photo credit *)

Lemma credit_link_shown (v : Script) (a : EntryAnswers) :
  answers_one_line a = true ->
  (has_line_from (lit "  creditLink: ") (text v a)
   <-> shows_credit v a = true).
Proof.
  intros Ho. unfold has_line_from. rewrite (text_lines v a Ho). split.
  - intros (l & I & P).
    destruct v; where_in_layout; try wrong_place; reflexivity.
  - intros H. exists (lit "  creditLink: " ++ interp (creditLink a)).
    split; [|apply starts_with_app].
    unfold layout, credit_lines. rewrite H, !in_app_iff.
    left. do 4 right. left. right. now left.
Qed.

Lemma credit_person_shown (v : Script) (a : EntryAnswers) :
  answers_one_line a = true ->
  has_line_from (lit "  creditPerson: ") (text v a) ->
  shows_credit v a = true.
Proof.
  intros Ho. unfold has_line_from. rewrite (text_lines v a Ho).
  intros (l & I & P).
  destruct v; where_in_layout; try wrong_place; reflexivity.
Qed.

Lemma credit_block_shown (v : Script) (a : EntryAnswers) :
  answers_one_line a = true -> shows_credit v a = true ->
  has_block [ lit "  creditPerson: " ++ interp (creditPerson a);
              lit "  creditLink: " ++ interp (creditLink a) ] (text v a).
Proof.
  intros Ho H. unfold has_block. rewrite (text_lines v a Ho).
  exists (head_lines a ++ tag_lines (tagsArray_of a) ++ flag_lines v a
            ++ image_lines v a).
  exists (draft_lines v ++ [lit "---"]).
  unfold layout, credit_lines. rewrite H, <- !app_assoc. reflexivity.
Qed.

(** C2, as the code has it: in the two scripts that ask for a credit, the
    front matter has a creditLink line if and only if the image block is
    written and the trimmed creditPerson is not empty; the creditPerson line
    and the creditLink line then follow each other.  The assembler writes
    the link as it finds it; it is the prompt that checks it, and a link in
    answers that the prompt has returned matches the URL pattern. *)
Theorem credit_link_iff_person (v : Script) (a : EntryAnswers) :
  asks_credit v = true ->
  complete v a = true -> answers_one_line a = true ->
  exists yaml slug,
    generate v a = Normal (yaml, slug)
    /\ (has_line_from (lit "  creditLink: ") yaml
        <-> shows_image v a = true /\ nonblank (creditPerson a) = true)
    /\ (shows_image v a = true -> nonblank (creditPerson a) = true ->
        has_block [ lit "  creditPerson: " ++ interp (creditPerson a);
                    lit "  creditLink: " ++ interp (creditLink a) ] yaml)
    /\ (forall today replies rest,
          promptUser v today replies = Done a rest ->
          forall link, creditLink a = Some link -> valid_url link = true).
Proof.
  intros Hv Hc Ho.
  destruct (generate_text v a Hc) as (t & _ & G).
  exists (text v a), (slugify t). split; [exact G|].
  assert (S : shows_credit v a = true
              <-> shows_image v a = true /\ nonblank (creditPerson a) = true).
  { destruct v; try discriminate Hv; cbn [shows_credit];
      apply andb_true_iff. }
  split; [|split].
  - rewrite <- S. now apply credit_link_shown.
  - intros Hi Hp. apply credit_block_shown; [exact Ho|]. now apply S.
  - intros today replies rest P. exact (promptUser_link_checked _ _ _ _ _ P).
Qed.

Lemma credit_link_iff_person_witness :
  exists yaml slug,
    generate Credit flagged_answers = Normal (yaml, slug)
    /\ (has_line_from (lit "  creditLink: ") yaml
        <-> shows_image Credit flagged_answers = true
            /\ nonblank (creditPerson flagged_answers) = true)
    /\ (shows_image Credit flagged_answers = true ->
        nonblank (creditPerson flagged_answers) = true ->
        has_block
          [ lit "  creditPerson: " ++ interp (creditPerson flagged_answers);
            lit "  creditLink: " ++ interp (creditLink flagged_answers) ]
          yaml)
    /\ (forall today replies rest,
          promptUser Credit today replies = Done flagged_answers rest ->
          forall link,
            creditLink flagged_answers = Some link -> valid_url link = true).
Proof.
  apply (credit_link_iff_person Credit flagged_answers); reflexivity.
Defined.

(** C2 as stated fails.  A space is a creditPerson that is not empty, and
    the second script of mkbo.js then writes neither credit line: the
    creditLink line is not equivalent to a creditPerson that is not empty.
    And the assembler writes a link that is no URL as it stands. *)
Lemma credit_person_space_no_link :
  (exists yaml slug,
     generate Credit space_credit_answers = Normal (yaml, slug)
     /\ truthy (creditPerson space_credit_answers) = true
     /\ ~ has_line_from (lit "  creditPerson: ") yaml
     /\ ~ (has_line_from (lit "  creditLink: ") yaml
           <-> truthy (creditPerson space_credit_answers) = true))
  /\
  (exists yaml slug,
     generate Credit bad_link_answers = Normal (yaml, slug)
     /\ truthy (creditPerson bad_link_answers) = true
     /\ has_line (lit "  creditLink: not a url") yaml
     /\ valid_url (lit "not a url") = false).
Proof.
  split.
  - destruct (generate_text Credit space_credit_answers eq_refl)
      as (t & _ & G).
    exists (text Credit space_credit_answers), (slugify t).
    split; [exact G|]. split; [reflexivity|]. split.
    + intros H. apply credit_person_shown in H; [discriminate H|reflexivity].
    + intros [_ H]. specialize (H eq_refl).
      apply credit_link_shown in H; [discriminate H|reflexivity].
  - destruct (generate_text Credit bad_link_answers eq_refl) as (t & _ & G).
    exists (text Credit bad_link_answers), (slugify t).
    split; [exact G|]. split; [reflexivity|]. split; [|reflexivity].
    apply text_has_line; [|oneline].
    vm_compute. tauto.
Qed.

(** ** The review loop *)

(** In the first script of mkbo.js and the first of part_000 every question
    of the review loop has the answer before as its default. *)
Lemma youtube_edit_defaults (previous : EntryAnswers) :
  Forall (defaults_to previous) (Youtube.edit_questions previous).
Proof. repeat constructor. Qed.

Lemma video_edit_defaults (previous : EntryAnswers) :
  Forall (defaults_to previous) (Video.edit_questions previous).
Proof. repeat constructor. Qed.

(** C7 does not hold of the second script of mkbo.js: its review loop asks
    for the credit person and the credit link without a default.  After a
    no and a bare Enter at every question the credit of the answers before
    is gone, where the other fields keep their values. *)
Theorem review_forgets_credit :
  ~ Forall (defaults_to flagged_answers)
      (Credit.edit_questions flagged_answers)
  /\ exists again,
       Credit.confirmOrEditYaml (text Credit flagged_answers)
         flagged_answers redo_with_enter = Done again []
       /\ title again = title flagged_answers
       /\ imageAlt again = imageAlt flagged_answers
       /\ creditPerson flagged_answers = Some (lit "Joe Photog")
       /\ creditPerson again = Some []
       /\ creditLink again = None
       /\ ~ has_line_from (lit "  creditPerson: ") (text Credit again).
Proof.
  split.
  - intros F. do 9 apply Forall_inv_tail in F. apply Forall_inv in F.
    specialize (F blank_answers). discriminate F.
  - eexists. split; [vm_compute; reflexivity|].
    repeat split.
    intros H. apply credit_person_shown in H; [discriminate H|reflexivity].
Qed.

(** ** The answers of a prompt are complete *)

Lemma prompt_input_inv (name : TextField) (m : string) (o : Options)
  (later : list Question) (a : EntryAnswers) (replies : list Reply)
  (a' : EntryAnswers) (rest : list Reply) :
  prompt (input name m o :: later) a replies = Done a' rest ->
  (when o a = Normal false /\ prompt later a replies = Done a' rest)
  \/ (when o a = Normal true
      /\ exists d value r1,
           default o a = Normal d
           /\ ask_input (validate o) d replies = Some (value, r1)
           /\ prompt later (set_text name value a) r1 = Done a' rest).
Proof.
  cbn [prompt].
  destruct (when o a) as [[|]|]; try discriminate; [|now left].
  destruct (default o a) as [d|]; try discriminate.
  destruct (ask_input (validate o) d replies) as [[value r1]|] eqn:A;
    try discriminate.
  intros P. right. split; [reflexivity|]. now exists d, value, r1.
Qed.

Lemma prompt_confirm_inv (name : FlagField) (m : string) (d : bool)
  (later : list Question) (a : EntryAnswers) (replies : list Reply)
  (a' : EntryAnswers) (rest : list Reply) :
  prompt (confirm name m d :: later) a replies = Done a' rest ->
  exists b value r1,
    replies = YesNo b :: r1
    /\ prompt later (set_flag name value a) r1 = Done a' rest.
Proof.
  cbn [prompt]. destruct replies as [|[s|b|t] r1]; try discriminate.
  intros P. eauto.
Qed.

Lemma prompt_choose_inv (m : string) (choices : list EntryType)
  (later : list Question) (a : EntryAnswers) (replies : list Reply)
  (a' : EntryAnswers) (rest : list Reply) :
  prompt (choose m choices :: later) a replies = Done a' rest ->
  exists t r1,
    replies = Pick t :: r1
    /\ prompt later (set_entryType t a) r1 = Done a' rest.
Proof.
  cbn [prompt]. destruct replies as [|[s|b|t] r1]; try discriminate.
  destruct (existsb _ choices); try discriminate.
  intros P. eauto.
Qed.

Lemma prompt_nil_inv (a : EntryAnswers) (replies : list Reply)
  (a' : EntryAnswers) (rest : list Reply) :
  prompt [] a replies = Done a' rest -> a' = a.
Proof. cbn [prompt]. now intros [= <- _]. Qed.

Lemma not_blank_true (v : option str) :
  not_blank v = Normal true -> present v = true /\ nonblank v = true.
Proof.
  destruct v as [s|]; [|discriminate]. cbn. now intros [= ->].
Qed.

Lemma not_blank_false (v : option str) :
  not_blank v = Normal false -> present v = true /\ nonblank v = false.
Proof.
  destruct v as [s|]; [|discriminate]. cbn. now intros [= ->].
Qed.

(** One question of the list, asked or passed over. *)
Ltac ask_one P :=
  let W := fresh "W" in
  first
    [ apply prompt_input_inv in P;
      destruct P as [[W P]|(W & ? & ? & ? & _ & _ & P)];
      cbn [when default validate plain with_when with_default with_validate
           set_text set_flag set_entryType hasImage imageSource
           creditPerson] in W, P;
      try discriminate W
    | apply prompt_confirm_inv in P; destruct P as (? & ? & ? & _ & P);
      cbn [set_text set_flag set_entryType] in P
    | apply prompt_choose_inv in P; destruct P as (? & ? & _ & P);
      cbn [set_text set_flag set_entryType] in P ].

Ltac ask_all P :=
  repeat ask_one P;
  apply prompt_nil_inv in P; subst;
  repeat match goal with
    | W : (if ?b then _ else _) = _ |- _ => destruct b; try discriminate W
    | W : not_blank _ = Normal true |- _ => apply not_blank_true in W as [? ?]
    | W : not_blank _ = Normal false |- _ =>
        apply not_blank_false in W as [? ?]
    end;
  try discriminate.

(** Whatever the user replies, the answers that [promptUser] returns are
    answers on which [generateYamlContent] returns. *)
Lemma promptUser_complete (v : Script) (today : str) (replies : list Reply)
  (a : EntryAnswers) (rest : list Reply) :
  promptUser v today replies = Done a rest -> complete v a = true.
Proof.
  intros P. destruct v; cbn [promptUser] in P;
    unfold Youtube.promptUser, Credit.promptUser, Video.promptUser,
      EntryTyped.promptUser, Plain.promptUser, inquirer_prompt,
      Youtube.promptUser_questions, Credit.promptUser_questions,
      Video.promptUser_questions, EntryTyped.promptUser_questions,
      Plain.promptUser_questions, blank_answers in P.
  all: ask_all P.
  all: unfold complete, shows_image;
       cbn [title imageSource creditPerson hasImage present andb orb negb].
  all: repeat match goal with
         | H : nonblank _ = _ |- _ => rewrite H
         end; try reflexivity.
Qed.

(** ** The answers of a prompt have no line feed *)

Lemma set_text_one_line (name : TextField) (value : str)
  (a : EntryAnswers) :
  answers_one_line a = true ->
  name = f_tags \/ one_line (Some value) = true ->
  answers_one_line (set_text name value a) = true.
Proof.
  unfold answers_one_line. destruct a, name; cbn [set_text title description
    date imageSource imageAlt creditPerson creditLink];
    rewrite !andb_true_iff; intros H [E|E]; try discriminate E;
    try rewrite E; tauto.
Qed.

Lemma set_flag_one_line (name : FlagField) (value : bool)
  (a : EntryAnswers) :
  answers_one_line (set_flag name value a) = answers_one_line a.
Proof. destruct a, name; reflexivity. Qed.

Lemma set_entryType_one_line (t : EntryType) (a : EntryAnswers) :
  answers_one_line (set_entryType t a) = answers_one_line a.
Proof. destruct a; reflexivity. Qed.

Lemma ask_input_rest (valid : str -> bool) (d : option str)
  (replies : list Reply) (value : str) (rest : list Reply) :
  forallb reply_one_line replies = true ->
  ask_input valid d replies = Some (value, rest) ->
  forallb reply_one_line rest = true.
Proof.
  induction replies as [|r replies IH]; cbn [ask_input forallb];
    [discriminate|].
  intros R. apply andb_prop in R as [_ R].
  destruct r as [s| |]; try discriminate.
  match goal with
  | |- context [if valid ?x then _ else _] => destruct (valid x)
  end; [|now apply IH].
  now intros [= _ <-].
Qed.

Lemma ask_input_one_line (valid : str -> bool) (d : option str)
  (replies : list Reply) (value : str) (rest : list Reply) :
  forallb reply_one_line replies = true ->
  (forall x, d = Some x -> one_line (Some x) = true) ->
  ask_input valid d replies = Some (value, rest) ->
  one_line (Some value) = true.
Proof.
  intros R D. induction replies as [|r replies IH]; cbn [ask_input];
    [discriminate|].
  cbn [forallb] in R. apply andb_prop in R as [Hr R].
  destruct r as [s| |]; try discriminate.
  match goal with
  | |- context [if valid ?x then _ else _] => destruct (valid x) eqn:E
  end; [|now apply IH].
  intros [= <- _].
  destruct s as [|c s]; [|exact Hr].
  destruct d as [x|]; [now apply D|reflexivity].
Qed.

Lemma prompt_one_line (questions : list Question) :
  Forall tidy questions ->
  forall a replies a' rest,
    answers_one_line a = true -> forallb reply_one_line replies = true ->
    prompt questions a replies = Done a' rest ->
    answers_one_line a' = true /\ forallb reply_one_line rest = true.
Proof.
  induction 1 as [|q later Hq _ IH]; intros a replies a' rest La Lr P.
  - cbn [prompt] in P. now injection P as <- <-.
  - destruct q as [name m o|name m d|m choices].
    + apply prompt_input_inv in P
        as [[_ P]|(_ & d & value & r1 & D & A & P)]; [eauto|].
      pose proof (ask_input_rest _ _ _ _ _ Lr A) as L1.
      refine (IH _ _ _ _ _ L1 P). apply set_text_one_line; [exact La|].
      destruct name; try (now left); right;
        apply (ask_input_one_line _ _ _ _ _ Lr) in A; auto;
        intros x ->; cbn [tidy] in Hq; eauto.
    + apply prompt_confirm_inv in P as (b & value & r1 & -> & P).
      cbn [forallb] in Lr. apply andb_prop in Lr as [_ Lr].
      refine (IH _ _ _ _ _ Lr P). now rewrite set_flag_one_line.
    + apply prompt_choose_inv in P as (t & r1 & -> & P).
      cbn [forallb] in Lr. apply andb_prop in Lr as [_ Lr].
      refine (IH _ _ _ _ _ Lr P). now rewrite set_entryType_one_line.
Qed.

Lemma slug_one_line (s tail : str) :
  one_line (Some tail) = true ->
  one_line (Some (slugify s ++ tail)) = true.
Proof.
  unfold one_line. cbn [interp]. rewrite existsb_app, !negb_true_iff.
  intros ->. rewrite orb_false_r.
  pose proof (SlugFacts.slugify_shaped s) as H.
  apply SlugFacts.slug_shaped_parts in H as (A & _).
  induction (slugify s) as [|c r IH]; [reflexivity|].
  cbn [forallb existsb] in *. apply andb_prop in A as [Hc A].
  rewrite (IH A), orb_false_r.
  destruct (Ascii.eqb_spec nl c) as [<-|]; [discriminate Hc|reflexivity].
Qed.

Lemma promptUser_questions_tidy (v : Script) (today : str) :
  one_line (Some today) = true -> Forall tidy (promptUser_questions v today).
Proof.
  intros T.
  assert (D : forall a d, default_image a = Normal (Some d) ->
                          one_line (Some d) = true).
  { intros a d. unfold default_image.
    destruct (title a) as [t|]; [|discriminate].
    cbn [slugify_lower bind]. intros [= <-]. now apply slug_one_line. }
  destruct v; repeat constructor; cbn [tidy default with_default with_when
    with_validate plain fixed]; intros a d _ E;
    first [discriminate E | now injection E as <- | now apply (D a)].
Qed.

(** When the user types lines, the answers that [promptUser] returns hold
    no line feed (the date default [today] holding none). *)
Lemma promptUser_one_line (v : Script) (today : str) (replies : list Reply)
  (a : EntryAnswers) (rest : list Reply) :
  one_line (Some today) = true -> forallb reply_one_line replies = true ->
  promptUser v today replies = Done a rest ->
  answers_one_line a = true.
Proof.
  intros T R P.
  apply (prompt_one_line (promptUser_questions v today)
           (promptUser_questions_tidy v today T)
           blank_answers replies a rest eq_refl R).
  destruct v; exact P.
Qed.

(** ** The review loop and [main] *)

Section Review.

Variable edit_questions : EntryAnswers -> list Question.
Variable generateYamlContent : EntryAnswers -> Completion (str * str).

(** The loop returns the answers it was given or answers that it has
    assembled. *)
Lemma review_loop_answers (fuel : nat) :
  forall yaml a replies a' rest,
    review_loop edit_questions generateYamlContent fuel yaml a replies
    = Done a' rest ->
    a' = a \/ exists result, generateYamlContent a' = Normal result.
Proof.
  induction fuel as [|fuel IH]; intros yaml a replies a' rest R;
    [discriminate R|].
  cbn [review_loop] in R.
  destruct (ask_accept replies) as [[[|] r1]|]; try discriminate R.
  - injection R as <- _. now left.
  - destruct (inquirer_prompt (edit_questions a) r1) as [a1 r2| |];
      try discriminate R.
    cbn [and_then] in R.
    destruct (generateYamlContent a1) as [result|] eqn:G;
      try discriminate R.
    cbn [returned and_then] in R.
    destruct (IH _ _ _ _ _ R) as [->|E]; [|now right].
    right. now exists result.
Qed.

Hypothesis edit_tidy :
  forall a, answers_one_line a = true -> Forall tidy (edit_questions a).


End Review.



(** The fuel of the loop is no limit: any fuel above the number of replies
    gives the same run. *)
Lemma ask_input_shorter (valid : str -> bool) (d : option str)
  (replies : list Reply) (value : str) (rest : list Reply) :
  ask_input valid d replies = Some (value, rest) ->
  List.length rest < List.length replies.
Proof.
  induction replies as [|r replies IH]; cbn [ask_input]; [discriminate|].
  destruct r as [s| |]; try discriminate.
  match goal with
  | |- context [if valid ?x then _ else _] => destruct (valid x)
  end.
  - intros [= _ <-]. simpl. lia.
  - intros A. apply IH in A. simpl. lia.
Qed.

Lemma prompt_shorter (questions : list Question) :
  forall a replies a' rest,
    prompt questions a replies = Done a' rest ->
    List.length rest <= List.length replies.
Proof.
  induction questions as [|q later IH]; intros a replies a' rest P.
  - cbn [prompt] in P. injection P as _ <-. lia.
  - destruct q as [name m o|name m d|m choices].
    + apply prompt_input_inv in P
        as [[_ P]|(_ & d & value & r1 & _ & A & P)]; [eauto|].
      apply ask_input_shorter in A. apply IH in P. lia.
    + apply prompt_confirm_inv in P as (b & value & r1 & -> & P).
      apply IH in P. simpl. lia.
    + apply prompt_choose_inv in P as (t & r1 & -> & P).
      apply IH in P. simpl. lia.
Qed.

Lemma review_loop_fuel
  (edit_questions : EntryAnswers -> list Question)
  (generateYamlContent : EntryAnswers -> Completion (str * str))
  (fuel1 : nat) :
  forall fuel2 yaml a replies,
    List.length replies < fuel1 -> List.length replies < fuel2 ->
    review_loop edit_questions generateYamlContent fuel1 yaml a replies
    = review_loop edit_questions generateYamlContent fuel2 yaml a replies.
Proof.
  induction fuel1 as [|fuel1 IH]; intros fuel2 yaml a replies L1 L2; [lia|].
  destruct fuel2 as [|fuel2]; [lia|].
  cbn [review_loop].
  destruct replies as [|[s|b|t] r1]; try reflexivity.
  cbn [ask_accept]. simpl in L1, L2.
  destruct (match b with Some b0 => b0 | None => true end); [reflexivity|].
  unfold inquirer_prompt.
  destruct (prompt (edit_questions a) blank_answers r1)
    as [a1 r2| |] eqn:P; try reflexivity.
  apply prompt_shorter in P. cbn [and_then].
  destruct (generateYamlContent a1) as [result|]; [|reflexivity].
  cbn [returned and_then]. apply IH; lia.
Qed.

(** ** The example of the README *)

Example readme_front_matter :
  Youtube.generateYamlContent readme_answers
  = Normal
      (unlines
         [ lit "---";
           lit "title: A test post";
           lit "description: This is a test post being created as an example of using this tool.";
           lit "date: 2025-02-07";
           lit "tags: [";
           lit "  " ++ [dquote] ++ lit "blogging" ++ [dquote; comma];
           lit "  " ++ [dquote] ++ lit "personal" ++ [dquote];
           lit "]";
           lit "image:";
           lit "  source: a-test-post.jpg";
           lit "  alt: A blog post being displayed on a laptop" ]
         ++ lit "---",
       lit "a-test-post").
Proof. reflexivity. Qed.

Example readme_run :
  Youtube.main (lit "2025-02-07") readme_session
  = Done (mkWrite (lit "a-test-post.md") (text Youtube readme_answers)) [].
Proof. reflexivity. Qed.

(** In the first script a no and a bare Enter at every question give the
    answers of before again. *)
Example youtube_redo_keeps_answers :
  Youtube.confirmOrEditYaml (text Youtube readme_answers) readme_answers
    redo_with_enter_short
  = Done readme_answers [].
Proof. reflexivity. Qed.

(** ** The matcher decides the language *)

Module RegexFacts.

Lemma denotes_nothing (s : str) : ~ denotes Nothing s.
Proof. intros H. inversion H. Qed.

Lemma denotes_empty_inv (s : str) : denotes Empty s -> s = [].
Proof. intros H. now inversion H. Qed.

Lemma denotes_class_inv (p : ascii -> bool) (s : str) :
  denotes (Class p) s -> exists c, s = [c] /\ p c = true.
Proof. intros H. inversion H; subst. eauto. Qed.

Lemma denotes_seq_inv (r1 r2 : Regex) (s : str) :
  denotes (Seq r1 r2) s ->
  exists s1 s2, s = s1 ++ s2 /\ denotes r1 s1 /\ denotes r2 s2.
Proof. intros H. inversion H; subst. eauto. Qed.

Lemma denotes_or_inv (r1 r2 : Regex) (s : str) :
  denotes (Or r1 r2) s -> denotes r1 s \/ denotes r2 s.
Proof. intros H. inversion H; subst; tauto. Qed.

Lemma nullable_denotes (r : Regex) : nullable r = true <-> denotes r [].
Proof.
  induction r as [| |p|r1 IH1 r2 IH2|r1 IH1 r2 IH2|r IH]; simpl.
  - split; [discriminate|]. intros H; inversion H.
  - split; [constructor|reflexivity].
  - split; [discriminate|]. intros H; inversion H.
  - rewrite andb_true_iff, IH1, IH2. split.
    + intros [H1 H2]. exact (denotes_seq _ _ [] [] H1 H2).
    + intros H. apply denotes_seq_inv in H as (s1 & s2 & E & H1 & H2).
      symmetry in E. apply app_eq_nil in E as [-> ->]. now split.
  - rewrite orb_true_iff, IH1, IH2. split.
    + intros [H|H]; [now apply denotes_or_left|now apply denotes_or_right].
    + apply denotes_or_inv.
  - split; [constructor|reflexivity].
Qed.

Lemma seq_denotes (r1 r2 : Regex) (s : str) :
  denotes (seq r1 r2) s <-> denotes (Seq r1 r2) s.
Proof.
  assert (N1 : forall r, ~ denotes (Seq Nothing r) s).
  { intros r H. apply denotes_seq_inv in H as (? & ? & _ & H & _).
    now apply denotes_nothing in H. }
  assert (N2 : forall r, ~ denotes (Seq r Nothing) s).
  { intros r H. apply denotes_seq_inv in H as (? & ? & _ & _ & H).
    now apply denotes_nothing in H. }
  assert (E : forall r, denotes r s <-> denotes (Seq Empty r) s).
  { intros r. split.
    - intros H. exact (denotes_seq Empty r [] s denotes_empty H).
    - intros H. apply denotes_seq_inv in H as (s1 & s2 & -> & H1 & H2).
      apply denotes_empty_inv in H1. now subst. }
  pose proof (denotes_nothing s) as N0.
  destruct r1, r2; simpl; try tauto; try apply E;
    split; intros H; exfalso;
    first [now apply N0 in H | now apply N1 in H | now apply N2 in H].
Qed.

Lemma or_denotes (r1 r2 : Regex) (s : str) :
  denotes (or r1 r2) s <-> denotes (Or r1 r2) s.
Proof.
  assert (L : forall r, denotes r s <-> denotes (Or Nothing r) s).
  { intros r. split; [now apply denotes_or_right|].
    intros H. apply denotes_or_inv in H as [H|H]; [|exact H].
    now apply denotes_nothing in H. }
  assert (R : forall r, denotes r s <-> denotes (Or r Nothing) s).
  { intros r. split; [now apply denotes_or_left|].
    intros H. apply denotes_or_inv in H as [H|H]; [exact H|].
    now apply denotes_nothing in H. }
  destruct r1, r2; simpl; try tauto; first [apply L | apply R].
Qed.

(** A text of a starred expression that is not empty begins with a text
    of the expression that is not empty. *)
Lemma star_cons (r : Regex) (c : ascii) (s : str) :
  denotes (Star r) (c :: s) ->
  exists s1 s2, s = s1 ++ s2 /\ denotes r (c :: s1) /\ denotes (Star r) s2.
Proof.
  intros H. remember (Star r) as R eqn:ER. remember (c :: s) as t eqn:Et.
  revert c s ER Et.
  induction H as [| | | | | |r0 s1 s2 H1 _ H2 IH2]; intros x u ER Et;
    try discriminate.
  injection ER as ->.
  destruct s1 as [|c1 s1].
  - simpl in Et. now apply IH2.
  - simpl in Et. injection Et as -> <-. now exists s1, s2.
Qed.

Lemma derive_denotes (c : ascii) (r : Regex) :
  forall s, denotes (derive c r) s <-> denotes r (c :: s).
Proof.
  induction r as [| |p|r1 IH1 r2 IH2|r1 IH1 r2 IH2|r IH]; intros s; simpl.
  - split; intros H; inversion H.
  - split; intros H; inversion H.
  - destruct (p c) eqn:E; split; intros H.
    + apply denotes_empty_inv in H as ->. now constructor.
    + apply denotes_class_inv in H as (x & [= _ ->] & _). constructor.
    + now apply denotes_nothing in H.
    + apply denotes_class_inv in H as (x & [= -> _] & F). congruence.
  - assert (K : denotes (Seq (derive c r1) r2) s \/
                (nullable r1 = true /\ denotes (derive c r2) s)
                <-> denotes (Seq r1 r2) (c :: s)).
    { split.
      - intros [H|[N H]].
        + apply denotes_seq_inv in H as (s1 & s2 & -> & H1 & H2).
          apply IH1 in H1.
          exact (denotes_seq r1 r2 (c :: s1) s2 H1 H2).
        + apply nullable_denotes in N. apply IH2 in H.
          exact (denotes_seq r1 r2 [] (c :: s) N H).
      - intros H. apply denotes_seq_inv in H as (s1 & s2 & E & H1 & H2).
        destruct s1 as [|c1 s1].
        + simpl in E. subst s2. right. split.
          * now apply nullable_denotes.
          * now apply IH2.
        + simpl in E. injection E as <- ->. left.
          apply denotes_seq; [now apply IH1|exact H2]. }
    destruct (nullable r1).
    + rewrite or_denotes, <- K. split.
      * intros H. apply denotes_or_inv in H as [H|H];
          [left; now apply seq_denotes|right; now split].
      * intros [H|[_ H]];
          [apply denotes_or_left; now apply seq_denotes
          |now apply denotes_or_right].
    + rewrite seq_denotes, <- K. split; [tauto|].
      intros [H|[N _]]; [exact H|discriminate N].
  - rewrite or_denotes. split; intros H;
      apply denotes_or_inv in H as [H|H];
      first [apply denotes_or_left; now apply IH1
            |apply denotes_or_right; now apply IH2].
  - rewrite seq_denotes. split.
    + intros H. apply denotes_seq_inv in H as (s1 & s2 & -> & H1 & H2).
      apply IH in H1.
      exact (denotes_star_more r (c :: s1) s2 H1 H2).
    + intros H. apply star_cons in H as (s1 & s2 & -> & H1 & H2).
      apply denotes_seq; [now apply IH|exact H2].
Qed.

Lemma matches_denotes (r : Regex) (s : str) :
  matches r s = true <-> denotes r s.
Proof.
  revert r. induction s as [|c s IH]; intros r; simpl.
  - apply nullable_denotes.
  - rewrite IH. apply derive_denotes.
Qed.

End RegexFacts.

(** ** What the validator of the credit link accepts *)

Lemma denotes_within (allowed : ascii -> bool) (r : Regex) (s : str) :
  denotes r s -> classes_within allowed r -> forallb allowed s = true.
Proof.
  induction 1 as [|p c Hc|r1 r2 s1 s2 _ IH1 _ IH2|r1 r2 s _ IH|r1 r2 s _ IH
                 |r|r s1 s2 _ IH1 _ IH2]; cbn [classes_within]; intros W.
  - reflexivity.
  - simpl. now rewrite (W c Hc).
  - rewrite forallb_app, IH1, IH2; tauto.
  - apply IH, W.
  - apply IH, W.
  - reflexivity.
  - rewrite forallb_app, IH1, IH2; auto.
Qed.

Lemma denotes_least_length (r : Regex) (s : str) :
  denotes r s ->
  exists n, least_length r = Some n /\ n <= List.length s.
Proof.
  induction 1 as [|p c Hc|r1 r2 s1 s2 _ [a [Ea La]] _ [b [Eb Lb]]
                 |r1 r2 s _ [a [Ea La]]|r1 r2 s _ [b [Eb Lb]]
                 |r|r s1 s2 _ _ _ _]; cbn [least_length].
  - exists 0. split; [reflexivity|simpl; lia].
  - exists 1. split; [reflexivity|simpl; lia].
  - rewrite Ea, Eb. exists (a + b). split; [reflexivity|].
    rewrite length_app. lia.
  - rewrite Ea. destruct (least_length r2) as [b|].
    + exists (Nat.min a b). split; [reflexivity|lia].
    + exists a. now split.
  - rewrite Eb. destruct (least_length r1) as [a|].
    + exists (Nat.min a b). split; [reflexivity|lia].
    + exists b. now split.
  - exists 0. split; [reflexivity|lia].
  - exists 0. split; [reflexivity|lia].
Qed.

Lemma denotes_lower (r : Regex) (s : str) :
  case_blind r -> denotes r s -> denotes r (map to_lower s).
Proof.
  intros B H. induction H as [|p c Hc|r1 r2 s1 s2 _ IH1 _ IH2|r1 r2 s _ IH
                             |r1 r2 s _ IH|r|r s1 s2 _ IH1 _ IH2];
    cbn [case_blind] in B.
  - constructor.
  - simpl. constructor. now rewrite B.
  - rewrite map_app. apply denotes_seq; [apply IH1|apply IH2]; tauto.
  - apply denotes_or_left, IH, B.
  - apply denotes_or_right, IH, B.
  - constructor.
  - rewrite map_app. apply denotes_star_more; [apply IH1|apply IH2]; auto.
Qed.

Lemma denotes_unlower (r : Regex) (t : str) :
  case_blind r -> denotes r t ->
  forall s, t = map to_lower s -> denotes r s.
Proof.
  intros B H. induction H as [|p c Hc|r1 r2 s1 s2 _ IH1 _ IH2|r1 r2 s0 _ IH
                             |r1 r2 s0 _ IH|r|r s1 s2 _ IH1 _ IH2];
    cbn [case_blind] in B; intros s E.
  - symmetry in E. apply map_eq_nil in E as ->. constructor.
  - destruct s as [|x [|y s]]; try discriminate E.
    injection E as ->. constructor. now rewrite <- B.
  - symmetry in E. apply map_eq_app in E as (a & b & -> & Ea & Eb).
    apply denotes_seq; [apply IH1|apply IH2]; auto; tauto.
  - apply denotes_or_left, IH; auto. apply B.
  - apply denotes_or_right, IH; auto. apply B.
  - symmetry in E. apply map_eq_nil in E as ->. constructor.
  - symmetry in E. apply map_eq_app in E as (a & b & -> & Ea & Eb).
    apply denotes_star_more; [apply IH1|apply IH2]; auto.
Qed.

(** Settles a statement on all 256 characters. *)
Ltac every_char :=
  let c := fresh "c" in
  intros c; destruct c as [[] [] [] [] [] [] [] []]; vm_compute;
  first [reflexivity | discriminate | intros; reflexivity
        | intros; discriminate].

Lemma urlPattern_within : classes_within url_char urlPattern.
Proof. cbn; repeat split; every_char. Qed.

Lemma urlPattern_case_blind : case_blind urlPattern.
Proof. cbn; repeat split; every_char. Qed.

(** X1: a link that the validator accepts is made of letters, digits and
    the marks [: / . - % _ ~ + ? ; & = #] only (so it holds no space, no comma,
    no [@]), and of three characters at least: the empty line is refused. *)
Theorem valid_url_characters (input : str) :
  valid_url input = true ->
  forallb url_char input = true /\ 3 <= List.length input.
Proof.
  unfold valid_url. intros H. apply RegexFacts.matches_denotes in H. split.
  - exact (denotes_within url_char urlPattern input H urlPattern_within).
  - destruct (denotes_least_length urlPattern input H) as (n & E & L).
    vm_compute in E. injection E as <-. exact L.
Qed.

Lemma valid_url_characters_witness :
  forallb url_char (lit "https://linktojoe.com") = true
  /\ 3 <= List.length (lit "https://linktojoe.com").
Proof.
  apply (valid_url_characters (lit "https://linktojoe.com")).
  vm_compute. reflexivity.
Defined.

(** X2: the validator does not tell upper case from lower case: a link is
    accepted exactly when its lower-case form is. *)
Theorem valid_url_ignores_case (input : str) :
  valid_url (map to_lower input) = valid_url input.
Proof.
  unfold valid_url.
  destruct (matches urlPattern input) eqn:E.
  - apply RegexFacts.matches_denotes in E.
    apply RegexFacts.matches_denotes.
    now apply denotes_lower; [apply urlPattern_case_blind|].
  - destruct (matches urlPattern (map to_lower input)) eqn:F; [|reflexivity].
    apply RegexFacts.matches_denotes in F.
    apply (denotes_unlower _ _ urlPattern_case_blind) with (s := input) in F;
      [|reflexivity].
    apply RegexFacts.matches_denotes in F. congruence.
Qed.

(** X3: the protocol is optional: what the pattern accepts after the
    protocol is accepted as it is, and with http or https before it. *)
Theorem valid_url_protocol_optional (rest : str) :
  matches url_after_protocol rest = true ->
  valid_url rest = true
  /\ valid_url (lit "http://" ++ rest) = true
  /\ valid_url (lit "https://" ++ rest) = true.
Proof.
  intros H. apply RegexFacts.matches_denotes in H.
  assert (P : forall scheme,
            denotes (opt url_protocol) scheme ->
            valid_url (scheme ++ rest) = true).
  { intros scheme S. apply RegexFacts.matches_denotes.
    change urlPattern with (Seq (opt url_protocol) url_after_protocol).
    now apply denotes_seq. }
  repeat split.
  - apply (P []). apply denotes_or_right. constructor.
  - apply P. apply denotes_or_left.
    apply RegexFacts.matches_denotes. reflexivity.
  - apply P. apply denotes_or_left.
    apply RegexFacts.matches_denotes. reflexivity.
Qed.

Lemma valid_url_protocol_optional_witness :
  valid_url (lit "linktojoe.com/photos") = true
  /\ valid_url (lit "http://" ++ lit "linktojoe.com/photos") = true
  /\ valid_url (lit "https://" ++ lit "linktojoe.com/photos") = true.
Proof.
  apply (valid_url_protocol_optional (lit "linktojoe.com/photos")).
  vm_compute. reflexivity.
Defined.

(** A text between two line feeds is a line. *)
Lemma line_between (before l after : str) :
  single_line l -> has_line l (before ++ nl :: l ++ nl :: after).
Proof.
  intros Hl. unfold has_line, lines.
  rewrite !split_on_app, (split_on_whole nl l Hl).
  apply in_or_app. right. now left.
Qed.

(** ** The assembler on answers with a property missing *)

(** X4: with a title, [generateYamlContent] throws a TypeError exactly when
    a property that the script trims is undefined: the image source in the
    three scripts with a review loop; in the second of mkbo.js also the
    credit person once the image source is not blank; in the script with
    entry types the same two, but only when [hasImage] is set.  The last
    script of part_000 trims nothing and never throws. *)
Theorem assembler_throws_iff_incomplete (v : Script) (a : EntryAnswers)
  (t : str) :
  title a = Some t ->
  (generate v a = Throw TypeError <-> complete v a = false).
Proof.
  intros Ht. split.
  - intros G. destruct (complete v a) eqn:E; [|reflexivity].
    apply generate_returns in E as [r E]. congruence.
  - intros E.
    destruct a as [et ti d tg ds pc sn py pv hi src alt cp cl].
    cbn [title] in Ht. subst ti.
    destruct v; unfold generate, complete in *.
    all: unfold Youtube.generateYamlContent, Credit.generateYamlContent,
           Video.generateYamlContent, EntryTyped.generateYamlContent,
           Plain.generateYamlContent.
    all: unfold shows_image, nonblank, not_blank, trim_of in *.
    all: cbn [title hasImage imageSource creditPerson bind slugify_lower
              present andb] in *.
    all: try discriminate E.
    all: try destruct hi; cbn [negb orb andb] in *; try discriminate E.
    all: destruct src as [s|]; [|reflexivity];
         cbn [bind present andb] in *; try discriminate E.
    all: destruct (negb (str_eqb (trim s) []));
         cbn [negb orb bind] in *; try discriminate E.
    all: destruct cp; [discriminate E|reflexivity].
Qed.

Lemma assembler_throws_iff_incomplete_witness :
  generate Youtube title_only_answers = Throw TypeError
  <-> complete Youtube title_only_answers = false.
Proof.
  apply (assembler_throws_iff_incomplete Youtube title_only_answers
           (lit "A test post")).
  reflexivity.
Defined.

(** X5: the assembler writes the title as it is: a line feed in the title
    starts a new line of the front matter, and what follows it stands there
    as a line of its own. *)
Theorem title_line_feed_makes_a_line (v : Script) (a : EntryAnswers)
  (first second : str) :
  complete v a = true ->
  title a = Some (first ++ nl :: second) -> single_line second ->
  exists yaml slug,
    generate v a = Normal (yaml, slug) /\ has_line second yaml.
Proof.
  intros Hc Ht Hs.
  destruct (generate_text v a Hc) as (t & _ & G).
  exists (text v a), (slugify t). split; [exact G|].
  assert (E : exists after,
            text v a
            = (lit "---" ++ nl :: lit "title: " ++ first)
                ++ nl :: second ++ nl :: after).
  { eexists. unfold text, layout, head_lines. rewrite Ht.
    cbn [interp unlines flat_map]. flatten. reflexivity. }
  destruct E as [after ->]. now apply line_between.
Qed.

Lemma title_line_feed_makes_a_line_witness :
  exists yaml slug,
    generate Video two_line_title_answers = Normal (yaml, slug)
    /\ has_line (lit "snow: true") yaml.
Proof.
  apply (title_line_feed_makes_a_line Video two_line_title_answers
           (lit "A test post") (lit "snow: true")).
  - reflexivity.
  - reflexivity.
  - unfold single_line. vm_compute. intuition discriminate.
Defined.

(** ** Where the script with entry types writes *)

(** X6: two entries are written to the same file exactly when they have
    the same entry type and the same slug: the three types have three
    directories, and nothing else tells files apart. *)
Theorem file_paths_meet_iff_same_entry (a b : EntryAnswers)
  (x y : EntryType) (slug_a slug_b : str) :
  entryType a = Some x -> entryType b = Some y ->
  (EntryTyped.filePath a slug_a = EntryTyped.filePath b slug_b
   <-> x = y /\ slug_a = slug_b).
Proof.
  intros Ea Eb. unfold EntryTyped.filePath, EntryTyped.targetDir.
  rewrite Ea, Eb. split.
  - intros H. rewrite <- !app_assoc in H. apply app_inv_head in H.
    destruct x, y; cbn [EntryTyped.entryTypeToDir lit app] in H;
      try discriminate H; split; try reflexivity.
    all: repeat (injection H as H); now apply app_inv_tail in H.
  - now intros [-> ->].
Qed.

Lemma file_paths_meet_iff_same_entry_witness :
  EntryTyped.filePath flagged_answers (lit "a-test-post")
  = EntryTyped.filePath flagged_answers (lit "a-test-post")
  <-> Note = Note /\ lit "a-test-post" = lit "a-test-post".
Proof.
  apply (file_paths_meet_iff_same_entry flagged_answers flagged_answers);
    reflexivity.
Defined.

(** ** What the prompts return *)


(** One question, keeping what is known of its answer. *)
Ltac walk_one P :=
  let W := fresh "W" in
  let D := fresh "D" in
  let A := fresh "A" in
  first
    [ apply prompt_input_inv in P;
      destruct P as [[W P]|(W & ? & ? & ? & D & A & P)];
      cbn [when default validate plain with_when with_default with_validate
           set_text set_flag set_entryType hasImage imageSource
           creditPerson title] in *;
      unfold fixed, default_image in *;
      cbn [title slugify_lower bind] in *;
      try discriminate W
    | apply prompt_confirm_inv in P; destruct P as (? & ? & ? & _ & P);
      cbn [set_text set_flag set_entryType] in P
    | apply prompt_choose_inv in P; destruct P as (? & ? & _ & P);
      cbn [set_text set_flag set_entryType] in P ].

Ltac walk P :=
  repeat walk_one P;
  apply prompt_nil_inv in P; subst;
  repeat match goal with
    | W : (if ?b then _ else _) = _ |- _ => destruct b; try discriminate W
    | W : not_blank _ = Normal true |- _ => apply not_blank_true in W as [? ?]
    | W : not_blank _ = Normal false |- _ =>
        apply not_blank_false in W as [? ?]
    | D : Normal _ = Normal _ |- _ => injection D as D; try subst
    end;
  try discriminate.

Ltac open_prompt P :=
  unfold Youtube.promptUser, Credit.promptUser, Video.promptUser,
    EntryTyped.promptUser, Plain.promptUser, inquirer_prompt,
    Youtube.promptUser_questions, Credit.promptUser_questions,
    Video.promptUser_questions, EntryTyped.promptUser_questions,
    Plain.promptUser_questions, blank_answers in P.

(** X7: whatever the user replies, the answers that [promptUser] returns
    have a title, a date, tags and a description, and [generateYamlContent]
    returns on them: after the prompt the assembler never throws. *)
Theorem prompt_answers_assemble (v : Script) (today : str)
  (replies : list Reply) (a : EntryAnswers) (rest : list Reply) :
  promptUser v today replies = Done a rest ->
  present (title a) = true /\ present (date a) = true
  /\ present (tags a) = true /\ present (description a) = true
  /\ exists yaml slug, generate v a = Normal (yaml, slug).
Proof.
  intros P.
  assert (C : complete v a = true) by exact (promptUser_complete _ _ _ _ _ P).
  destruct (generate_text v a C) as (t & _ & G).
  assert (F : present (title a) = true /\ present (date a) = true
              /\ present (tags a) = true /\ present (description a) = true).
  { destruct v; cbn [promptUser] in P; open_prompt P; walk P;
      repeat split. }
  destruct F as (? & ? & ? & ?). repeat split; eauto.
Qed.

Lemma prompt_answers_assemble_witness :
  present (title readme_answers) = true
  /\ present (date readme_answers) = true
  /\ present (tags readme_answers) = true
  /\ present (description readme_answers) = true
  /\ exists yaml slug, generate Youtube readme_answers = Normal (yaml, slug).
Proof.
  apply (prompt_answers_assemble Youtube (lit "2025-02-07")
           (firstn 9 readme_session) readme_answers []).
  reflexivity.
Defined.

(** X8: in the three scripts with a review loop the alt text is asked
    exactly when the image block is going to be written: the answers that
    [promptUser] returns have an alt text if and only if the trimmed image
    source is not empty. *)
Theorem alt_asked_iff_source_shown (v : Script) (today : str)
  (replies : list Reply) (a : EntryAnswers) (rest : list Reply) :
  source_gated v = true ->
  promptUser v today replies = Done a rest ->
  present (imageAlt a) = nonblank (imageSource a).
Proof.
  intros Hv P. destruct v; try discriminate Hv; cbn [promptUser] in P;
    open_prompt P; walk P; cbn [imageAlt imageSource present];
    congruence.
Qed.

Lemma alt_asked_iff_source_shown_witness :
  present (imageAlt readme_answers) = nonblank (imageSource readme_answers).
Proof.
  apply (alt_asked_iff_source_shown Youtube (lit "2025-02-07")
           (firstn 9 readme_session) readme_answers []);
    reflexivity.
Defined.



(** X10: in the two scripts that ask for a credit, the answers that
    [promptUser] returns have a credit person exactly when the image block
    is written and a credit link exactly when the credit lines are; a link
    that is there has passed the validator. *)
Theorem credit_asked_iff_written (v : Script) (today : str)
  (replies : list Reply) (a : EntryAnswers) (rest : list Reply) :
  asks_credit v = true ->
  promptUser v today replies = Done a rest ->
  present (creditPerson a) = shows_image v a
  /\ present (creditLink a) = shows_credit v a
  /\ forall link, creditLink a = Some link -> valid_url link = true.
Proof.
  intros Hv P.
  assert (L : link_checked a) by exact (promptUser_link_checked _ _ _ _ _ P).
  split; [|split; [|exact L]].
  - destruct v; try discriminate Hv; cbn [promptUser] in P;
      open_prompt P; walk P;
      cbn [shows_image imageSource creditPerson hasImage present andb];
      congruence.
  - destruct v; try discriminate Hv; cbn [promptUser] in P;
      open_prompt P; walk P;
      cbn [shows_credit shows_image imageSource creditPerson creditLink
           hasImage present andb];
      repeat match goal with
        | H : nonblank _ = _ |- _ => rewrite H
        end; reflexivity.
Qed.

Lemma credit_asked_iff_written_witness :
  present (creditPerson credit_session_answers)
  = shows_image Credit credit_session_answers
  /\ present (creditLink credit_session_answers)
     = shows_credit Credit credit_session_answers
  /\ forall link,
       creditLink credit_session_answers = Some link ->
       valid_url link = true.
Proof.
  apply (credit_asked_iff_written Credit (lit "2025-02-07") credit_session
           credit_session_answers []).
  - reflexivity.
  - vm_compute. reflexivity.
Defined.

(** X11: the two scripts that ask for a credit never return from the
    prompt with an image source that is blank: an image source that is
    there is not empty once trimmed. *)
Theorem credit_prompt_needs_source (v : Script) (today : str)
  (replies : list Reply) (a : EntryAnswers) (rest : list Reply) :
  asks_credit v = true ->
  promptUser v today replies = Done a rest ->
  present (imageSource a) = true -> nonblank (imageSource a) = true.
Proof.
  intros Hv P. destruct v; try discriminate Hv; cbn [promptUser] in P;
    open_prompt P; walk P; cbn [imageSource present];
    first [discriminate | intros _; assumption].
Qed.

Lemma credit_prompt_needs_source_witness :
  nonblank (imageSource credit_session_answers) = true.
Proof.
  apply (credit_prompt_needs_source Credit (lit "2025-02-07") credit_session
           credit_session_answers []).
  - reflexivity.
  - vm_compute. reflexivity.
  - reflexivity.
Defined.

(** X12: in the script with entry types, answering no to "Will there be an
    image?" leaves the four image answers unset. *)
Theorem no_image_leaves_unset (today : str) (replies : list Reply)
  (a : EntryAnswers) (rest : list Reply) :
  EntryTyped.promptUser today replies = Done a rest ->
  hasImage a = false ->
  imageSource a = None /\ imageAlt a = None
  /\ creditPerson a = None /\ creditLink a = None.
Proof.
  intros P. open_prompt P. walk P;
    cbn [hasImage imageSource imageAlt creditPerson creditLink];
    intros Hno; try discriminate Hno; repeat split.
Qed.

Lemma no_image_leaves_unset_witness :
  imageSource note_session_answers = None
  /\ imageAlt note_session_answers = None
  /\ creditPerson note_session_answers = None
  /\ creditLink note_session_answers = None.
Proof.
  apply (no_image_leaves_unset (lit "2025-02-07") note_session
           note_session_answers []); reflexivity.
Defined.

(** X13: in the script with entry types the alt text is required: when the
    answers that [promptUser] returns have the image block written, their
    alt text is not blank. *)
Theorem typed_alt_required (today : str) (replies : list Reply)
  (a : EntryAnswers) (rest : list Reply) :
  EntryTyped.promptUser today replies = Done a rest ->
  shows_image EntryTyped a = true ->
  nonblank (imageAlt a) = true.
Proof.
  intros P. open_prompt P. walk P;
    cbn [shows_image hasImage imageSource imageAlt andb];
    intros Hshown; try discriminate Hshown; try congruence.
  all: match goal with
       | A : ask_input (fun input => negb (str_eqb (trim input) [])) _ _
             = Some (?alt, _) |- nonblank (Some ?alt) = true =>
           apply ask_input_valid in A; exact A
       end.
Qed.

Lemma typed_alt_required_witness :
  nonblank (imageAlt pictured_note_answers) = true.
Proof.
  apply (typed_alt_required (lit "2025-02-07") pictured_note_session
           pictured_note_answers []); reflexivity.
Defined.

(** ** Typing a blank image source *)

(** X14: in the second script of mkbo.js, typing white space as image source
    ends the prompt with a TypeError, whatever else is typed: the credit
    person is then not asked, and the test that decides on asking the credit
    link trims it all the same. *)
Theorem credit_prompt_throws_on_blank_source
  (today title date tags description source : str)
  (code snow video : option bool) (rest : list Reply) :
  source <> [] -> trim source = [] ->
  Credit.promptUser today
    (session_to_source title date tags description code snow video source
       ++ rest)
  = Fails TypeError.
Proof.
  intros Hs Ht. destruct source as [|c source]; [contradiction|].
  unfold Credit.promptUser, Credit.promptUser_questions, inquirer_prompt,
    session_to_source, blank_answers.
  cbn -[slugify trim]. unfold not_blank, trim_of. cbn -[slugify trim].
  rewrite Ht. reflexivity.
Qed.

Lemma credit_prompt_throws_on_blank_source_witness :
  Credit.promptUser (lit "2025-02-07")
    (session_to_source (lit "A test post") [] (lit "blogging") []
       None None None (lit " ") ++ [])
  = Fails TypeError.
Proof.
  apply credit_prompt_throws_on_blank_source;
    [discriminate|reflexivity].
Defined.

(** X15: the same in the script with entry types once "Will there be an
    image?" is answered yes: white space as image source ends the prompt
    with a TypeError. *)
Theorem typed_prompt_throws_on_blank_source (type : EntryType)
  (today title date tags description source : str)
  (code snow video : option bool) (rest : list Reply) :
  source <> [] -> trim source = [] ->
  EntryTyped.promptUser today
    (typed_session_to_source type title date tags description
       code snow video source ++ rest)
  = Fails TypeError.
Proof.
  intros Hs Ht. destruct source as [|c source]; [contradiction|].
  unfold EntryTyped.promptUser, EntryTyped.promptUser_questions,
    inquirer_prompt, typed_session_to_source, blank_answers.
  destruct type; cbn -[slugify trim]; unfold not_blank, trim_of;
    cbn -[slugify trim]; rewrite Ht; reflexivity.
Qed.

Lemma typed_prompt_throws_on_blank_source_witness :
  EntryTyped.promptUser (lit "2025-02-07")
    (typed_session_to_source Note (lit "A test post") [] (lit "blogging") []
       None None None (lit " ") ++ [])
  = Fails TypeError.
Proof.
  apply typed_prompt_throws_on_blank_source;
    [discriminate|reflexivity].
Defined.

(** X16: in the first script of mkbo.js and the first of part_000 the same
    reply skips the image: the prompt returns without asking the alt text,
    and the front matter has no image block. *)
Theorem blank_source_skips_image (v : Script)
  (today title date tags description source : str)
  (code snow video : option bool) (rest : list Reply) :
  v = Youtube \/ v = Video ->
  source <> [] -> trim source = [] ->
  exists a,
    promptUser v today
      (session_to_source title date tags description code snow video source
         ++ rest)
    = Done a rest
    /\ imageSource a = Some source /\ imageAlt a = None
    /\ shows_image v a = false.
Proof.
  intros Hv Hs Ht. destruct source as [|c source]; [contradiction|].
  destruct Hv as [-> | ->]; eexists; cbn [promptUser];
    unfold Youtube.promptUser, Youtube.promptUser_questions,
      Video.promptUser, Video.promptUser_questions, inquirer_prompt,
      session_to_source, blank_answers.
  all: cbn -[slugify trim]; unfold not_blank, trim_of;
       cbn -[slugify trim]; rewrite Ht; cbn -[slugify trim].
  all: repeat split; cbn -[trim]; now rewrite Ht.
Qed.

Lemma blank_source_skips_image_witness :
  exists a,
    promptUser Youtube (lit "2025-02-07")
      (session_to_source (lit "A test post") [] (lit "blogging") []
         None None None (lit " ") ++ [])
    = Done a []
    /\ imageSource a = Some (lit " ") /\ imageAlt a = None
    /\ shows_image Youtube a = false.
Proof.
  apply (blank_source_skips_image Youtube);
    [now left|discriminate|reflexivity].
Defined.

(** ** Going through the review loop with Enter *)

Lemma edit_enter_same (v : Script) (today : str) (replies : list Reply)
  (a : EntryAnswers) (rest more : list Reply) :
  v = Youtube \/ v = Video ->
  promptUser v today replies = Done a rest ->
  inquirer_prompt
    (match v with
     | Video => Video.edit_questions a
     | _ => Youtube.edit_questions a
     end)
    (enter_at_all a ++ more)
  = Done a more.
Proof.
  intros Hv P.
  destruct Hv as [-> | ->]; cbn [promptUser] in P; open_prompt P; walk P.
  all: unfold enter_at_all, inquirer_prompt, Youtube.edit_questions,
         Video.edit_questions, blank_answers, enter.
  all: cbn [imageSource].
  all: match goal with
       | H : nonblank _ = _ |- _ => rewrite H
       end.
  all: cbn -[slugify trim]; unfold not_blank, trim_of; cbn -[slugify trim].
  all: match goal with
       | H : nonblank (Some ?s) = _ |- _ =>
           unfold nonblank in H; rewrite H
       end; reflexivity.
Qed.

(** X17: in the first script of mkbo.js and the first of part_000, going
    through the review loop with a bare Enter at every question gives the
    answers of the prompt again, all of them: the loop then ends on the yes
    with the same answers. *)
Theorem review_enter_keeps_answers (v : Script) (today : str)
  (replies : list Reply) (a : EntryAnswers) (rest more : list Reply)
  (yaml : str) :
  v = Youtube \/ v = Video ->
  promptUser v today replies = Done a rest ->
  review v yaml a (redo_keeping_all a ++ more) = Done a more.
Proof.
  intros Hv P.
  pose proof (edit_enter_same v today replies a rest
                (YesNo (Some true) :: more) Hv P) as E.
  assert (C : complete v a = true) by exact (promptUser_complete _ _ _ _ _ P).
  destruct (generate_text v a C) as (t & _ & G).
  unfold redo_keeping_all.
  destruct Hv as [-> | ->]; cbn [review generate] in *;
    unfold Youtube.confirmOrEditYaml, Video.confirmOrEditYaml.
  all: cbn [app List.length review_loop ask_accept].
  all: rewrite <- app_assoc; cbn [app].
  all: rewrite E; cbn [and_then]; rewrite G; cbn [returned and_then fst].
  all: rewrite length_app; cbn [List.length]; rewrite Nat.add_succ_r.
  all: reflexivity.
Qed.

Lemma review_enter_keeps_answers_witness :
  review Youtube [] readme_answers (redo_keeping_all readme_answers ++ [])
  = Done readme_answers [].
Proof.
  apply (review_enter_keeps_answers Youtube (lit "2025-02-07")
           (firstn 9 readme_session) readme_answers []);
    [now left|reflexivity].
Defined.

(** ** How a run can fail *)

Lemma prompt_input_fails (name : TextField) (m : string) (o : Options)
  (later : list Question) (a : EntryAnswers) (replies : list Reply)
  (e : Exn) :
  prompt (input name m o :: later) a replies = Fails e ->
  when o a = Throw e
  \/ (when o a = Normal false /\ prompt later a replies = Fails e)
  \/ (when o a = Normal true /\ default o a = Throw e)
  \/ (when o a = Normal true
      /\ exists d value r1,
           default o a = Normal d
           /\ ask_input (validate o) d replies = Some (value, r1)
           /\ prompt later (set_text name value a) r1 = Fails e).
Proof.
  cbn [prompt].
  destruct (when o a) as [[|]|x]; [| |intros [= ->]; now left].
  - destruct (default o a) as [d|x]; [|intros [= ->]; right; right; now left].
    destruct (ask_input (validate o) d replies) as [[value r1]|] eqn:A;
      try discriminate.
    intros P. do 3 right. split; [reflexivity|]. now exists d, value, r1.
  - intros P. right; left. now split.
Qed.

Lemma prompt_confirm_fails (name : FlagField) (m : string) (d : bool)
  (later : list Question) (a : EntryAnswers) (replies : list Reply)
  (e : Exn) :
  prompt (confirm name m d :: later) a replies = Fails e ->
  exists value r1, prompt later (set_flag name value a) r1 = Fails e.
Proof.
  cbn [prompt]. destruct replies as [|[s|b|t] r1]; try discriminate.
  intros P. eauto.
Qed.

Lemma prompt_choose_fails (m : string) (choices : list EntryType)
  (later : list Question) (a : EntryAnswers) (replies : list Reply)
  (e : Exn) :
  prompt (choose m choices :: later) a replies = Fails e ->
  exists t r1, prompt later (set_entryType t a) r1 = Fails e.
Proof.
  cbn [prompt]. destruct replies as [|[s|b|t] r1]; try discriminate.
  destruct (existsb _ choices); try discriminate.
  intros P. eauto.
Qed.

(** One question on the way to a failure. *)
Ltac stumble_one P :=
  let W := fresh "W" in
  let D := fresh "D" in
  first
    [ apply prompt_input_fails in P;
      destruct P as [W|[[W P]|[[W D]|(W & ? & ? & ? & D & _ & P)]]];
      cbn [when default validate plain with_when with_default with_validate
           set_text set_flag set_entryType hasImage imageSource
           creditPerson title] in *;
      unfold fixed, default_image in *;
      cbn [title slugify_lower bind] in *;
      try discriminate W; try discriminate D
    | apply prompt_confirm_fails in P; destruct P as (? & ? & P);
      cbn [set_text set_flag set_entryType] in P
    | apply prompt_choose_fails in P; destruct P as (? & ? & P);
      cbn [set_text set_flag set_entryType] in P ].

Ltac stumble P :=
  repeat stumble_one P;
  try discriminate P;
  repeat match goal with
    | W : (if ?b then _ else _) = _ |- _ => destruct b; try discriminate W
    | W : not_blank (Some _) = Throw _ |- _ => discriminate W
    | W : not_blank None = Throw _ |- _ => injection W as W
    | W : not_blank None = Normal _ |- _ => discriminate W
    end.

(** The prompt fails with a TypeError only, and only in the two scripts
    that ask for a credit. *)
Lemma prompt_fails_how (questions : EntryAnswers -> list Question)
  (v : Script) (today : str) (previous : EntryAnswers)
  (replies : list Reply) (e : Exn) :
  questions = (fun _ => promptUser_questions v today)
  \/ questions = edit_questions v ->
  inquirer_prompt (questions previous) replies = Fails e ->
  e = TypeError /\ asks_credit v = true.
Proof.
  intros [-> | ->] P; unfold inquirer_prompt, blank_answers in P;
    destruct v; cbn [promptUser_questions edit_questions] in P;
    unfold Youtube.promptUser_questions, Credit.promptUser_questions,
      Video.promptUser_questions, EntryTyped.promptUser_questions,
      Plain.promptUser_questions, Youtube.edit_questions,
      Credit.edit_questions, Video.edit_questions in P;
    stumble P; subst; try discriminate; split; reflexivity.
Qed.

Lemma edit_complete (v : Script) (previous : EntryAnswers)
  (replies : list Reply) (a : EntryAnswers) (rest : list Reply) :
  source_gated v = true ->
  inquirer_prompt (edit_questions v previous) replies = Done a rest ->
  complete v a = true.
Proof.
  intros Hv P. unfold inquirer_prompt, blank_answers in P.
  destruct v; try discriminate Hv; cbn [edit_questions] in P;
    unfold Youtube.edit_questions, Credit.edit_questions,
      Video.edit_questions in P.
  all: ask_all P.
  all: unfold complete, shows_image;
       cbn [title imageSource creditPerson hasImage present andb orb negb].
  all: repeat match goal with
         | H : nonblank _ = _ |- _ => rewrite H
         end; try reflexivity.
Qed.

Lemma review_fails_how (v : Script) (yaml : str) (a : EntryAnswers)
  (replies : list Reply) (e : Exn) :
  review v yaml a replies = Fails e ->
  e = TypeError /\ asks_credit v = true.
Proof.
  assert (K : forall fuel y b r,
            source_gated v = true ->
            review_loop (edit_questions v) (generate v) fuel y b r = Fails e ->
            e = TypeError /\ asks_credit v = true).
  { induction fuel as [|fuel IH]; intros y b r Hv R; [discriminate R|].
    cbn [review_loop] in R.
    destruct (ask_accept r) as [[[|] r1]|]; try discriminate R.
    destruct (inquirer_prompt (edit_questions v b) r1) as [a1 r2|x|] eqn:P;
      try discriminate R.
    - cbn [and_then] in R.
      apply (edit_complete v b r1 a1 r2 Hv) in P.
      destruct (generate_text v a1 P) as (t & _ & G).
      rewrite G in R. cbn [returned and_then] in R. eauto.
    - cbn [and_then] in R. injection R as ->.
      apply (prompt_fails_how (edit_questions v) v [] b r1 e);
        [now right|exact P]. }
  destruct v; cbn [review]; try discriminate;
    unfold Youtube.confirmOrEditYaml, Credit.confirmOrEditYaml,
      Video.confirmOrEditYaml; intros R.
  - exact (K _ _ _ _ eq_refl R).
  - exact (K _ _ _ _ eq_refl R).
  - exact (K _ _ _ _ eq_refl R).
Qed.

(** X18: a run of [main] fails with a TypeError only, and only in the two
    scripts that ask for a credit; the other three scripts never fail:
    they write the file or wait for a reply.  (Failures of the file system
    are not modelled.) *)
Theorem main_fails_how (v : Script) (today : str) (replies : list Reply)
  (e : Exn) :
  main v today replies = Fails e ->
  e = TypeError /\ asks_credit v = true.
Proof.
  intros M.
  assert (Q : forall r x, promptUser v today r = Fails x ->
              x = TypeError /\ asks_credit v = true).
  { intros r x P.
    apply (prompt_fails_how (fun _ => promptUser_questions v today) v today
             blank_answers r x); [now left|].
    destruct v; exact P. }
  assert (G : forall r a r1, promptUser v today r = Done a r1 ->
              exists t, generate v a = Normal (text v a, slugify t)).
  { intros r a r1 P. apply promptUser_complete in P.
    destruct (generate_text v a P) as (t & _ & G). eauto. }
  assert (S : forall a y sl, generate v a = Normal (y, sl) ->
              forall y' b r b' r', review v y' b r = Done b' r' ->
              b = a -> exists t, generate v b' = Normal (text v b', slugify t)).
  { intros a y sl Ga y' b r b' r' R ->.
    assert (C : complete v b' = true).
    { destruct v; cbn [review] in R;
        try (injection R as <- _; apply generate_returns; eauto);
        unfold Youtube.confirmOrEditYaml, Credit.confirmOrEditYaml,
          Video.confirmOrEditYaml in R;
        apply review_loop_answers in R as [-> | [res E]];
        apply generate_returns; eauto. }
    destruct (generate_text v b' C) as (t & _ & E). eauto. }
  destruct v; cbn [main] in M;
    unfold Youtube.main, Credit.main, Video.main, EntryTyped.main,
      Plain.main, main_with_review, EntryTyped.write_entry in M.
  all: match type of M with
       | and_then (?p ?t ?r) _ = _ =>
           destruct (p t r) as [a r1|x|] eqn:P; try discriminate M;
           [|injection M as ->; exact (Q _ _ P)]
       end.
  all: cbn [and_then] in M; destruct (G _ _ _ P) as (t & Ga);
       cbn [generate] in Ga; rewrite Ga in M;
       cbn [returned and_then fst] in M; try discriminate M.
  all: match type of M with
       | and_then (?c ?y ?x ?r) _ = _ =>
           destruct (c y x r) as [a2 r2|x2|] eqn:C; try discriminate M
       end.
  all: cbn [and_then] in M.
  1,3,5: destruct (S _ _ _ Ga _ _ _ _ _ C eq_refl) as (t2 & G2);
         cbn [generate] in G2; rewrite G2 in M; discriminate M.
  all: injection M as ->.
  - exact (review_fails_how Youtube _ _ _ _ C).
  - exact (review_fails_how Credit _ _ _ _ C).
  - exact (review_fails_how Video _ _ _ _ C).
Qed.

Lemma main_fails_how_witness :
  TypeError = TypeError /\ asks_credit Credit = true.
Proof.
  apply (main_fails_how Credit (lit "2025-02-07") blank_source_session).
  vm_compute. reflexivity.
Defined.

(** ** What [main] writes *)


Section Invariant.

Variable J : EntryAnswers -> Prop.



End Invariant.




(** ** The layout of the front matter *)

(** X20: line by line, the front matter is: the delimiter, the title, the
    description, the date, the tags (one line when empty, else one line for
    each tag between two bracket lines), the flags that are set in the
    order code, video, snow, the image block, the credit lines, [draft: true]
    in the script with entry types, and the delimiter; nothing else and in
    this order. *)
Theorem front_matter_line_by_line (v : Script) (a : EntryAnswers) :
  complete v a = true -> answers_one_line a = true ->
  exists yaml slug,
    generate v a = Normal (yaml, slug)
    /\ lines yaml
       = [ lit "---";
           lit "title: " ++ interp (title a);
           lit "description: " ++ interp (description a);
           lit "date: " ++ interp (date a) ]
         ++ tag_lines (tagsArray_of a)
         ++ flag_line v CodeFlag a ++ flag_line v VideoFlag a
         ++ flag_line v SnowFlag a
         ++ image_lines v a ++ credit_lines v a ++ draft_lines v
         ++ [lit "---"].
Proof.
  intros Hc Ho.
  destruct (generate_text v a Hc) as (t & _ & G).
  exists (text v a), (slugify t). split; [exact G|].
  rewrite (text_lines v a Ho). unfold layout, head_lines, flag_lines.
  now rewrite <- !app_assoc.
Qed.

Lemma front_matter_line_by_line_witness :
  exists yaml slug,
    generate EntryTyped flagged_answers = Normal (yaml, slug)
    /\ lines yaml
       = [ lit "---";
           lit "title: " ++ interp (title flagged_answers);
           lit "description: " ++ interp (description flagged_answers);
           lit "date: " ++ interp (date flagged_answers) ]
         ++ tag_lines (tagsArray_of flagged_answers)
         ++ flag_line EntryTyped CodeFlag flagged_answers
         ++ flag_line EntryTyped VideoFlag flagged_answers
         ++ flag_line EntryTyped SnowFlag flagged_answers
         ++ image_lines EntryTyped flagged_answers
         ++ credit_lines EntryTyped flagged_answers
         ++ draft_lines EntryTyped
         ++ [lit "---"].
Proof.
  apply (front_matter_line_by_line EntryTyped flagged_answers); reflexivity.
Defined.

(** X21: whatever the user replies, no answer that the script writes is
    undefined in the answers that [promptUser] returns: a question that was
    skipped is never written. *)
Theorem prompt_leaves_nothing_undefined (v : Script) (today : str)
  (replies : list Reply) (a : EntryAnswers) (rest : list Reply) :
  promptUser v today replies = Done a rest ->
  nothing_undefined v a = true.
Proof.
  intros P. destruct v; cbn [promptUser] in P; open_prompt P; walk P;
    unfold nothing_undefined, shows_credit, shows_image;
    cbn [title description date imageSource imageAlt creditPerson creditLink
         hasImage present source_gated andb orb negb];
    first [ exfalso; congruence
          | repeat match goal with
              | H : nonblank _ = _ |- _ => rewrite H
              end; reflexivity ].
Qed.

Lemma prompt_leaves_nothing_undefined_witness :
  nothing_undefined EntryTyped pictured_note_answers = true.
Proof.
  apply (prompt_leaves_nothing_undefined EntryTyped (lit "2025-02-07")
           pictured_note_session pictured_note_answers []).
  reflexivity.
Defined.

(** ** The tags as they are written *)

Module TrimFacts.

Lemma trim_start_suffix (s : str) : exists dropped, s = dropped ++ trim_start s.
Proof.
  induction s as [|c r [d IH]]; cbn [trim_start]; [now exists []|].
  destruct (is_space c).
  - exists (c :: d). simpl. now rewrite <- IH.
  - now exists [].
Qed.

Lemma trim_start_same (s : str) :
  match s with c :: _ => is_space c = false | [] => True end ->
  trim_start s = s.
Proof. destruct s as [|c r]; cbn [trim_start]; [reflexivity|]. now intros ->. Qed.

Lemma trim_start_head (s : str) :
  match trim_start s with c :: _ => is_space c = false | [] => True end.
Proof.
  induction s as [|c r IH]; cbn [trim_start]; [exact I|].
  destruct (is_space c) eqn:E; [exact IH|exact E].
Qed.

(** Trimming the end leaves in place a first character that is no white
    space. *)
Lemma trim_end_first (s : str) :
  match s with c :: _ => is_space c = false | [] => True end ->
  match trim_end s with c :: _ => is_space c = false | [] => True end.
Proof.
  unfold trim_end. destruct s as [|c r]; [intros _; exact I|]. intros N.
  cbn [rev].
  assert (K : exists z, trim_start (rev r ++ [c]) = z ++ [c]).
  { induction (rev r) as [|x l [z IH]]; cbn [app trim_start].
    - rewrite N. now exists [].
    - destruct (is_space x); [now exists z|now exists (x :: l)]. }
  destruct K as [z ->]. rewrite rev_app_distr. exact N.
Qed.

Lemma trim_twice (s : str) : trim (trim s) = trim s.
Proof.
  unfold trim at 1.
  assert (H : match trim s with
              | c :: _ => is_space c = false
              | [] => True
              end) by apply trim_end_first, trim_start_head.
  rewrite (trim_start_same _ H).
  unfold trim, trim_end at 1 2. rewrite rev_involutive.
  rewrite (trim_start_same (trim_start _)) by apply trim_start_head.
  reflexivity.
Qed.

Lemma trim_keeps_out (c : ascii) (s : str) : ~ In c s -> ~ In c (trim s).
Proof.
  intros N I. apply N. unfold trim, trim_end in I.
  apply in_rev in I.
  destruct (trim_start_suffix (rev (trim_start s))) as [d E].
  assert (I2 : In c (rev (trim_start s)))
    by (rewrite E; apply in_or_app; now right).
  apply in_rev in I2.
  destruct (trim_start_suffix s) as [d2 E2].
  rewrite E2. apply in_or_app. now right.
Qed.

End TrimFacts.

(** X22: every tag that is written is trimmed and holds no comma: trimming
    it again changes nothing. *)
Theorem tags_are_trimmed (a : EntryAnswers) (tag : str) :
  In tag (tagsArray_of a) -> trim tag = tag /\ ~ In comma tag.
Proof.
  unfold tagsArray_of. destruct (truthy (tags a)); [|intros []].
  intros I. apply in_map_iff in I as (piece & <- & I). split.
  - apply TrimFacts.trim_twice.
  - apply TrimFacts.trim_keeps_out.
    pose proof (split_on_free comma (interp (tags a))) as F.
    rewrite Forall_forall in F. now apply F.
Qed.

Lemma tags_are_trimmed_witness :
  trim (lit "personal") = lit "personal" /\ ~ In comma (lit "personal").
Proof.
  apply (tags_are_trimmed readme_answers (lit "personal")).
  vm_compute. tauto.
Defined.
